(** * CTA-861 video timing extraction: a shallow embedding of [get_timings.py]

    The script scans the text of [drm_edid.c], cuts the initialisers of
    the two CEA mode tables into one string per entry, and decodes and
    cross-checks each entry in [parse_mode_string].

    Modelling conventions.
    - A Python [str] is a [string]; a character is a code point below 256.
      Among those, the decimal digits are exactly "0".."9", and the white
      space characters (for [str.strip] and [str.split()]) are the twelve
      listed in [Py.is_space].
    - A Python [int] is a [Z]; the interpreter's limit on the number of
      digits that [int] converts is not modelled.  A Python [float] is a
      binary64 number, given by the [spec_float] operations of the standard
      library at precision 53 and maximal exponent 1024, with rounding to
      nearest, ties to even.
    - A raised exception is the [Err] case of [result]; the text of an
      assertion message is not kept.
    - The output of [print] is a list of [warning] values, which hold what
      the message is formatted from.
    - The part of the script that fetches the file and writes the JSON
      output is not modelled. *)

From Stdlib Require Import ZArith String Ascii List Lia Bool.
From Stdlib Require Import Floats.SpecFloat DecimalString.
From stdpp Require Import base decidable option list gmap strings.

Local Open Scope string_scope.
Local Open Scope Z_scope.

(** ** Exceptions and the error monad *)

Inductive exn : Type :=
| AssertionError
| ValueError
| IndexError
| TypeError
| UnboundLocalError
| ZeroDivisionError
| OverflowError.

Inductive result (A : Type) : Type :=
| Ok (a : A)
| Err (e : exn).
Arguments Ok {A} a.
Arguments Err {A} e.

#[global] Instance result_ret : MRet result := fun A a => Ok a.
#[global] Instance result_bind : MBind result := fun A B k m =>
  match m with
  | Ok a => k a
  | Err e => Err e
  end.

(** [assert c] *)
Definition assert (c : bool) : result unit :=
  if c then Ok tt else Err AssertionError.

(** ** The Python built-ins the script uses *)

Module Py.

(** [c.isspace()] for a code point below 256. *)
Definition is_space (c : ascii) : bool :=
  match c with
  | "009" | "010" | "011" | "012" | "013"
  | "028" | "029" | "030" | "031" | " "
  | "133" | "160" => true
  | _ => false
  end%char.

Fixpoint rev (s : string) : string :=
  match s with
  | "" => ""
  | String c s' => rev s' ++ String c ""
  end.

Fixpoint drop (n : nat) (s : string) : string :=
  match n, s with
  | O, _ => s
  | S _, "" => ""
  | S n', String _ s' => drop n' s'
  end.

(** [s.startswith(p)] and [s.endswith(p)] *)
Definition startswith (s p : string) : bool := String.prefix p s.
Definition endswith (s p : string) : bool := String.prefix (rev p) (rev s).

(** [s.partition(sep)], for a non-empty [sep]: the text before and the
    text after the first occurrence of [sep], if there is one. *)
Fixpoint partition (sep s : string) : option (string * string) :=
  if String.prefix sep s then Some ("", drop (String.length sep) s)
  else match s with
       | "" => None
       | String c s' =>
           match partition sep s' with
           | Some (a, r) => Some (String c a, r)
           | None => None
           end
       end.

(** [sub in s], for a non-empty [sub]. *)
Definition contains (sub s : string) : bool :=
  match partition sub s with Some _ => true | None => false end.

(** [s.split(sep, n)]: at most [n] cuts, from the left.  Every call of
    the script passes a non-empty literal for [sep]. *)
Fixpoint splitn (n : nat) (sep s : string) : list string :=
  match n with
  | O => [s]
  | S n' =>
      match partition sep s with
      | None => [s]
      | Some (a, r) => a :: splitn n' sep r
      end
  end.

(** [s.split(sep)]: a non-empty separator occurs at most [len(s)] times. *)
Definition split (sep s : string) : list string :=
  splitn (String.length s) sep s.

(** [s.rsplit(sep, n)] and [s.rsplit(sep)]: the same scan from the right. *)
Definition rsplitn (n : nat) (sep s : string) : list string :=
  List.map rev (List.rev (splitn n (rev sep) (rev s))).
Definition rsplit (sep s : string) : list string :=
  rsplitn (String.length s) sep s.

(** [s.split()]: the maximal runs of characters that are not white space.
    [words] returns the run that starts the text (possibly empty) and the
    runs after it. *)
Fixpoint words (s : string) : string * list string :=
  match s with
  | "" => ("", [])
  | String c s' =>
      let '(w, ws) := words s' in
      if is_space c
      then ("", match w with "" => ws | _ => w :: ws end)
      else (String c w, ws)
  end.
Definition split_ws (s : string) : list string :=
  let '(w, ws) := words s in
  match w with "" => ws | _ => w :: ws end.

(** [s.strip()], for a given class of white space. *)
Fixpoint lstrip_by (sp : ascii -> bool) (s : string) : string :=
  match s with
  | "" => ""
  | String c s' => if sp c then lstrip_by sp s' else s
  end.
Fixpoint rstrip_by (sp : ascii -> bool) (s : string) : string :=
  match s with
  | "" => ""
  | String c s' =>
      match rstrip_by sp s' with
      | "" => if sp c then "" else String c ""
      | r => String c r
      end
  end.
Definition strip (s : string) : string :=
  rstrip_by is_space (lstrip_by is_space s).

(** [s.replace(old, new)], for a non-empty [old]. *)
Definition replace (old new s : string) : string :=
  String.concat new (split old s).

(** [s[:-1]] *)
Fixpoint drop_last (s : string) : string :=
  match s with
  | "" => ""
  | String c "" => ""
  | String c s' => String c (drop_last s')
  end.

(** [l[i]] *)
Definition item {A : Type} (l : list A) (i : nat) : result A :=
  match l !! i with
  | Some a => Ok a
  | None => Err IndexError
  end.

(** *** Integers *)

Definition digit (c : ascii) : option Z :=
  let n := Z.of_nat (nat_of_ascii c) in
  if (48 <=? n) && (n <=? 57) then Some (n - 48) else None.

(** The longest prefix of [s] of the shape [(["_"] digit)*], read after a
    first digit: the digits read so far as an integer [acc], their number
    [n], and the text that is left. *)
Fixpoint digits_tl (s : string) (acc : Z) (n : nat) : Z * nat * string :=
  match s with
  | "" => (acc, n, s)
  | String c s' =>
      match digit c with
      | Some d => digits_tl s' (10 * acc + d) (S n)
      | None =>
          if Ascii.eqb c "_" then
            match s' with
            | "" => (acc, n, s)
            | String c2 s2 =>
                match digit c2 with
                | Some d => digits_tl s2 (10 * acc + d) (S n)
                | None => (acc, n, s)
                end
            end
          else (acc, n, s)
      end
  end.

(** [digitpart ::= digit (["_"] digit)*], as a prefix of [s]; the digits
    are appended to those of [acc]. *)
Definition digitpart (acc : Z) (s : string) : option (Z * nat * string) :=
  match s with
  | "" => None
  | String c s' =>
      match digit c with
      | Some d => Some (digits_tl s' (10 * acc + d) 1%nat)
      | None => None
      end
  end.

(** An optional sign. *)
Definition sign (s : string) : bool * string :=
  match s with
  | String c s' =>
      if Ascii.eqb c "-" then (true, s')
      else if Ascii.eqb c "+" then (false, s')
      else (false, s)
  | "" => (false, s)
  end.

(** The white space that [int] and [float] skip around a number: of the
    characters of [is_space], the four separators "028" to "031" are not
    skipped. *)
Definition is_space_num (c : ascii) : bool :=
  match c with
  | "009" | "010" | "011" | "012" | "013" | " " | "133" | "160" => true
  | _ => false
  end%char.
Definition strip_num (s : string) : string :=
  rstrip_by is_space_num (lstrip_by is_space_num s).

(** [int(s)] in base ten. *)
Definition int (s : string) : result Z :=
  let '(neg, u) := sign (strip_num s) in
  match digitpart 0 u with
  | Some (v, _, "") => Ok (if neg then - v else v)
  | _ => Err ValueError
  end.

(** *** Floats (binary64) *)

Definition float : Type := spec_float.

Definition prec : Z := 53.
Definition emax : Z := 1024.

(** The float nearest to [m * 10 ^ e] (ties to even), for [0 <= m]. *)
Definition of_decimal (neg : bool) (m e : Z) : float :=
  match m with
  | Zpos p =>
      if 0 <=? e
      then binary_normalize prec emax
             (if neg then - (m * 10 ^ e) else m * 10 ^ e) 0 neg
      else
        let '(mz, ez, lz) :=
          SFdiv_core_binary prec emax m 0 (10 ^ (- e)) 0 in
        binary_round_aux prec emax neg mz ez lz
  | _ => S754_zero neg
  end.

(** [float(z)] for an integer [z]. *)
Definition float_of_int (z : Z) : result float :=
  match binary_normalize prec emax z 0 false with
  | S754_infinity _ => Err OverflowError
  | f => Ok f
  end.

Definition lower (c : ascii) : ascii :=
  let n := nat_of_ascii c in
  if ((65 <=? n) && (n <=? 90))%nat then ascii_of_nat (n + 32) else c.

Fixpoint lower_str (s : string) : string :=
  match s with
  | "" => ""
  | String c s' => String (lower c) (lower_str s')
  end.

(** [number ::= [digitpart] "." digitpart | digitpart ["."]]: the digits
    read as one integer, the number of digits after the point, and the
    text that is left. *)
Definition number (s : string) : option (Z * nat * string) :=
  match digitpart 0 s with
  | Some (i, _, String "." r) =>
      match digitpart i r with
      | Some (v, k, r') => Some (v, k, r')
      | None => Some (i, 0%nat, r)
      end
  | Some (i, _, r) => Some (i, 0%nat, r)
  | None =>
      match s with
      | String "." r => digitpart 0 r
      | _ => None
      end
  end.

(** [exponent ::= ("e" | "E") [sign] digitpart], optional, at the end of
    the text. *)
Definition exponent (s : string) : option Z :=
  match s with
  | "" => Some 0
  | String c s' =>
      if Ascii.eqb (lower c) "e" then
        let '(neg, u) := sign s' in
        match digitpart 0 u with
        | Some (v, _, "") => Some (if neg then - v else v)
        | _ => None
        end
      else None
  end.

(** [float(s)] for a string [s]. *)
Definition float_of_str (s : string) : result float :=
  let '(neg, u) := sign (strip_num s) in
  let l := lower_str u in
  if String.eqb l "inf" || String.eqb l "infinity" then Ok (S754_infinity neg)
  else if String.eqb l "nan" then Ok S754_nan
  else
    match number u with
    | Some (m, k, r) =>
        match exponent r with
        | Some e => Ok (of_decimal neg m (e - Z.of_nat k))
        | None => Err ValueError
        end
    | None => Err ValueError
    end.

(** [x / y] on floats. *)
Definition fdiv (x y : float) : result float :=
  match y with
  | S754_zero _ => Err ZeroDivisionError
  | _ => Ok (SFdiv prec emax x y)
  end.

Definition fmul : float -> float -> float := SFmul prec emax.
Definition fsub : float -> float -> float := SFsub prec emax.
Definition fabs : float -> float := SFabs.
Definition feqb : float -> float -> bool := SFeqb.
Definition fltb : float -> float -> bool := SFltb.

End Py.

Import Py.

(** ** Constants of the script *)

(** The double quote character, as a one-character string. *)
Definition dq : string := String (ascii_of_nat 34) "".
(** The line feed character, as a one-character string. *)
Definition nl : string := String (ascii_of_nat 10) "".

Definition arrays_to_include : list string :=
  ["edid_cea_modes_1"; "edid_cea_modes_193"].

Definition ln4 : list Z := [6; 7; 8; 9; 10; 11; 12; 13; 50; 51; 58; 59].
Definition ln7 : list Z := [2; 3; 14; 15; 35; 36; 48; 49; 56; 57].

Definition get_ln (vic : Z) : Z :=
  if bool_decide (vic ∈ ln4) then 4
  else if bool_decide (vic ∈ ln7) then 7
  else 1.

(** ** The data of one entry *)

(** The local variables that the comment of an entry defines. *)
Record ParsedComment : Type := {
  cmnt_cta861_id : Z;
  cmnt_name : string;
  cmnt_freq : string;
  cmnt_dbl_clocked : bool;
  cmnt_hres : Z;
  cmnt_dbl_hres : option Z;
  cmnt_interlaced : bool;
  cmnt_vres : Z;
  cmnt_aspect_nom : Z;
  cmnt_aspect_denom : Z
}.

(** The local variables that the parameter list of [DRM_MODE] defines.  The
    numeric parameters stay strings: the script converts them where it
    uses them. *)
Record ParsedMacro : Type := {
  mac_name : string;
  mac_type : string;
  mac_clock : string;
  mac_hdisplay : string;
  mac_hsync_start : string;
  mac_hsync_end : string;
  mac_htotal : string;
  mac_hskew : string;
  mac_vdisplay : string;
  mac_vsync_start : string;
  mac_vsync_end : string;
  mac_vtotal : string;
  mac_vscan : string;
  mac_flags : list string;
  mac_dbl_clk : bool;
  mac_interlaced : bool;
  mac_hsync_neg : bool;
  mac_vsync_neg : bool;
  mac_name_hres : Z;
  mac_name_interlaced : bool;
  mac_name_vres : Z
}.

(** The dictionary that [parse_mode_string] returns. *)
Record VideoMode : Type := {
  vic : Z;
  name : string;
  pxl_clk_khz : Z;
  hactive : Z;
  vactive : Z;
  interlaced : bool;
  double_clocked : bool;
  htotal : Z;
  hblank : Z;
  hfront : Z;
  hsync : Z;
  hback : Z;
  hpol : Z;
  vtotal : Z;
  vblank : Z;
  vfront : Z;
  vsync : Z;
  vback : Z;
  vpol : Z;
  ln : Z
}.

(** What the warning of the refresh rate check prints: the name of the
    mode, the rate of the comment and the computed rate. *)
Record warning : Type := {
  warn_name : string;
  warn_freq : string;
  warn_fps : float
}.

(** ** [parse_mode_string] *)

(** Lines 67 to 69: the three parts of an entry. *)
Definition split_comment (mode_string : string) : result string :=
  a ← item (split "/*" mode_string) 1;
  b ← item (split "*/" a) 0;
  Ok (strip b).

Definition split_macro (mode_string : string) : result string :=
  a ← item (split "*/" mode_string) 1;
  b ← item (splitn 1 "(" a) 1;
  c ← item (rsplit ")" b) 0;
  Ok (strip c).

Definition split_aspect (mode_string : string) : result string :=
  a ← item (split ".picture_aspect_ratio" mode_string) 1;
  b ← item (split "," a) 0;
  Ok (strip b).

(** Lines 72 to 93. *)
Definition parse_comment (comment : string) : result ParsedComment :=
  id_str ← item (split "-" comment) 0;
  cmnt_cta861_id ← int (strip id_str);
  descr ← item (split "-" comment) 1;
  cmnt_name ← (t ← item (split " " (strip descr)) 0; Ok (strip t));
  cmnt_freq ← (a ← item (split "@" cmnt_name) 1;
               b ← item (split "Hz" a) 0;
               Ok (strip b));
  cmnt_hres_str ← item (split "x" cmnt_name) 0;
  '(cmnt_dbl_clocked, cmnt_hres, cmnt_dbl_hres) ←
    (if contains "(" cmnt_hres_str then
       h ← (a ← item (split "(" cmnt_hres_str) 0; int a);
       d ← (a ← item (split "(" cmnt_hres_str) 1;
            b ← item (split ")" a) 0;
            int (strip b));
       Ok (true, h, Some d)
     else
       h ← int cmnt_hres_str;
       Ok (false, h, None));
  cmnt_vres_str ← (a ← item (split "x" cmnt_name) 1;
                   b ← item (split "@" a) 0;
                   Ok (strip b));
  '(cmnt_interlaced, cmnt_vres) ←
    (if endswith cmnt_vres_str "i" then
       v ← int (drop_last cmnt_vres_str); Ok (true, v)
     else
       v ← int cmnt_vres_str; Ok (false, v));
  cmnt_aspect_ratio ← (a ← item (split "-" comment) 1;
                       b ← item (split " " (strip a)) 1;
                       Ok (strip b));
  cmnt_aspect_nom ← (a ← item (split ":" cmnt_aspect_ratio) 0; int (strip a));
  cmnt_aspect_denom ← (a ← item (split ":" cmnt_aspect_ratio) 1; int (strip a));
  Ok {| cmnt_cta861_id := cmnt_cta861_id; cmnt_name := cmnt_name;
        cmnt_freq := cmnt_freq; cmnt_dbl_clocked := cmnt_dbl_clocked;
        cmnt_hres := cmnt_hres; cmnt_dbl_hres := cmnt_dbl_hres;
        cmnt_interlaced := cmnt_interlaced; cmnt_vres := cmnt_vres;
        cmnt_aspect_nom := cmnt_aspect_nom;
        cmnt_aspect_denom := cmnt_aspect_denom |}.

(** Lines 96 to 109. *)
Definition parse_macro (macro : string) : result ParsedMacro :=
  match split "," (replace " " "" macro) with
  | [mac_name; mac_type; mac_clock; mac_hdisplay; mac_hsync_start;
     mac_hsync_end; mac_htotal; mac_hskew; mac_vdisplay; mac_vsync_start;
     mac_vsync_end; mac_vtotal; mac_vscan; mac_flags] =>
      let mac_flags := List.map strip (split "|" mac_flags) in
      let mac_dbl_clk := bool_decide ("DRM_MODE_FLAG_DBLCLK" ∈ mac_flags) in
      let mac_interlaced := bool_decide ("DRM_MODE_FLAG_INTERLACE" ∈ mac_flags) in
      let mac_hsync_neg := bool_decide ("DRM_MODE_FLAG_NHSYNC" ∈ mac_flags) in
      let mac_vsync_neg := bool_decide ("DRM_MODE_FLAG_NVSYNC" ∈ mac_flags) in
      let mac_name := replace dq "" mac_name in
      mac_name_hres ← (a ← item (split "x" mac_name) 0; int a);
      '(mac_name_interlaced, mac_name_vres) ←
        (if contains "i" mac_name then
           v ← (a ← item (split "x" mac_name) 1; int (drop_last a));
           Ok (true, v)
         else
           v ← (a ← item (split "x" mac_name) 1; int a);
           Ok (false, v));
      Ok {| mac_name := mac_name; mac_type := mac_type;
            mac_clock := mac_clock; mac_hdisplay := mac_hdisplay;
            mac_hsync_start := mac_hsync_start;
            mac_hsync_end := mac_hsync_end; mac_htotal := mac_htotal;
            mac_hskew := mac_hskew; mac_vdisplay := mac_vdisplay;
            mac_vsync_start := mac_vsync_start;
            mac_vsync_end := mac_vsync_end; mac_vtotal := mac_vtotal;
            mac_vscan := mac_vscan; mac_flags := mac_flags;
            mac_dbl_clk := mac_dbl_clk; mac_interlaced := mac_interlaced;
            mac_hsync_neg := mac_hsync_neg; mac_vsync_neg := mac_vsync_neg;
            mac_name_hres := mac_name_hres;
            mac_name_interlaced := mac_name_interlaced;
            mac_name_vres := mac_name_vres |}
  | _ => Err ValueError
  end.

(** Lines 112 and 113: [aspect_nom] and [aspect_denom]. *)
Definition parse_aspect (aspect_elmnt : string) : result (Z * Z) :=
  aspect_nom ← (a ← item (rsplitn 2 "_" aspect_elmnt) 1; int a);
  aspect_denom ← (a ← item (rsplitn 2 "_" aspect_elmnt) 2; int a);
  Ok (aspect_nom, aspect_denom).

(** Line 117. *)
Definition flags_avail : gset string :=
  {[ "DRM_MODE_FLAG_DBLCLK"; "DRM_MODE_FLAG_INTERLACE";
     "DRM_MODE_FLAG_NHSYNC"; "DRM_MODE_FLAG_NVSYNC";
     "DRM_MODE_FLAG_PHSYNC"; "DRM_MODE_FLAG_PVSYNC" ]}.

Definition hsync_flags : gset string :=
  {[ "DRM_MODE_FLAG_NHSYNC"; "DRM_MODE_FLAG_PHSYNC" ]}.
Definition vsync_flags : gset string :=
  {[ "DRM_MODE_FLAG_NVSYNC"; "DRM_MODE_FLAG_PVSYNC" ]}.

(** Lines 118 to 136: the assertions before the refresh rate. *)
Definition check_consistency (c : ParsedComment) (k : ParsedMacro)
    (aspect : Z * Z) : result unit :=
  let flags : gset string := list_to_set (mac_flags k) in
  assert (bool_decide (flags ∖ flags_avail = ∅));;
  assert (bool_decide (size (hsync_flags ∩ flags) = 1%nat));;
  assert (bool_decide (size (vsync_flags ∩ flags) = 1%nat));;
  (if mac_interlaced k then
     assert (mac_name_interlaced k);;
     assert (cmnt_interlaced c)
   else Ok tt);;
  (if mac_dbl_clk k then
     assert (cmnt_dbl_clocked c);;
     assert (bool_decide (Some (2 * cmnt_hres c) = cmnt_dbl_hres c))
   else Ok tt);;
  hd ← int (mac_hdisplay k);
  assert (hd =? cmnt_hres c);;
  assert (mac_name_hres k =? cmnt_hres c);;
  vd ← int (mac_vdisplay k);
  assert (vd =? cmnt_vres c);;
  assert (mac_name_vres k =? cmnt_vres c);;
  assert (aspect.1 =? cmnt_aspect_nom c);;
  assert (aspect.2 =? cmnt_aspect_denom c);;
  assert (String.eqb (mac_type k) "DRM_MODE_TYPE_DRIVER");;
  hskew ← int (mac_hskew k);
  assert (hskew =? 0);;
  vscan ← int (mac_vscan k);
  assert (vscan =? 0).

(** The literals [0.005] and [2] of lines 140 and 138, as floats. *)
Definition f0_005 : float := of_decimal false 5 (-3).
Definition f2 : float := of_decimal false 2 0.

(** Lines 137 and 138: [fps_calc]. *)
Definition fps_calc (k : ParsedMacro) : result float :=
  clock ← int (mac_clock k);
  a ← float_of_int (clock * 1000);
  vt ← int (mac_vtotal k);
  ht ← int (mac_htotal k);
  b ← float_of_int (vt * ht);
  q ← fdiv a b;
  Ok (if mac_interlaced k then fmul q f2 else q).

(** Lines 139 to 143: the comparison with the rate of the comment, which
    prints a warning, prints nothing, or fails. *)
Definition check_fps (c : ParsedComment) (fps : float) : result (list warning) :=
  freq ← float_of_str (cmnt_freq c);
  if negb (feqb fps freq) then
    if fltb (fabs (fsub freq fps)) (fmul f0_005 freq) then
      Ok [ {| warn_name := cmnt_name c; warn_freq := cmnt_freq c;
              warn_fps := fps |} ]
    else Err AssertionError
  else Ok [].

(** Lines 145 to 166: the record. *)
Definition build_mode (c : ParsedComment) (k : ParsedMacro) : result VideoMode :=
  clock ← int (mac_clock k);
  hdisplay ← int (mac_hdisplay k);
  vdisplay ← int (mac_vdisplay k);
  htotal ← int (mac_htotal k);
  hsync_start ← int (mac_hsync_start k);
  hsync_end ← int (mac_hsync_end k);
  vtotal ← int (mac_vtotal k);
  vsync_start ← int (mac_vsync_start k);
  vsync_end ← int (mac_vsync_end k);
  Ok {| vic := cmnt_cta861_id c;
        name := mac_name k ++ "@" ++ cmnt_freq c ++ "Hz";
        pxl_clk_khz := clock;
        hactive := hdisplay;
        vactive := vdisplay;
        interlaced := mac_interlaced k;
        double_clocked := mac_dbl_clk k;
        htotal := htotal;
        hblank := htotal - hdisplay;
        hfront := hsync_start - hdisplay;
        hsync := hsync_end - hsync_start;
        hback := htotal - hsync_end;
        hpol := if mac_hsync_neg k then 0 else 1;
        vtotal := vtotal;
        vblank := vtotal - vdisplay;
        vfront := vsync_start - vdisplay;
        vsync := vsync_end - vsync_start;
        vback := vtotal - vsync_end;
        vpol := if mac_vsync_neg k then 0 else 1;
        ln := get_ln (cmnt_cta861_id c) |}.

(** The decoding part of [parse_mode_string], lines 67 to 113. *)
Definition decode (mode_string : string)
    : result (ParsedComment * ParsedMacro * (Z * Z)) :=
  comment ← split_comment mode_string;
  macro ← split_macro mode_string;
  aspect_elmnt ← split_aspect mode_string;
  c ← parse_comment comment;
  k ← parse_macro macro;
  aspect ← parse_aspect aspect_elmnt;
  Ok (c, k, aspect).

(** [parse_mode_string] returns the record and what it printed. *)
Definition parse_mode_string (mode_string : string)
    : result (VideoMode * list warning) :=
  '(c, k, aspect) ← decode mode_string;
  check_consistency c k aspect;;
  fps ← fps_calc k;
  printed ← check_fps c fps;
  mode ← build_mode c k;
  Ok (mode, printed).

(** ** [parse_c_file] *)

(** The local variable [mode_string] of [parse_c_file]: not yet assigned,
    [None], or a string. *)
Inductive local_str : Type :=
| Unbound
| PyNone
| PyStr (s : string).

(** The state of the loop over the lines. *)
Record scan : Type := {
  current_array : option string;
  mode_string : local_str;
  video_modes : list VideoMode;
  printed : list warning
}.

(** [if current_array:] holds for a string that is not empty. *)
Definition truthy (current_array : option string) : bool :=
  match current_array with
  | Some (String _ _) => true
  | _ => false
  end.

(** Lines 183 to 185: the name of an array that is to be included, when
    the line declares one. *)
Definition declared (arrays_to_include : list string) (line : string)
    : result (option string) :=
  if startswith line "static const struct drm_display_mode" then
    tok ← item (split_ws line) 4;
    h ← item (split "[" tok) 0;
    let array_name := strip h in
    Ok (if bool_decide (array_name ∈ arrays_to_include)
        then Some array_name else None)
  else Ok None.

(** Lines 189 to 192: the entry text after this line. *)
Definition accumulate (mode_string : local_str) (line : string) : result string :=
  if startswith line "/*" then Ok line
  else match mode_string with
       | PyStr s => Ok (s ++ line)
       | PyNone => Err TypeError
       | Unbound => Err UnboundLocalError
       end.

(** One turn of the loop, lines 178 to 194. *)
Definition step (arrays_to_include : list string) (st : scan) (line : string)
    : result scan :=
  let line := strip line in
  if startswith line "};" then
    Ok {| current_array := None; mode_string := PyNone;
          video_modes := video_modes st; printed := printed st |}
  else
    d ← declared arrays_to_include line;
    match d with
    | Some array_name =>
        Ok {| current_array := Some array_name;
              mode_string := mode_string st;
              video_modes := video_modes st; printed := printed st |}
    | None =>
        if truthy (current_array st) then
          ms ← accumulate (mode_string st) line;
          if endswith line "}," then
            '(mode, out) ← parse_mode_string ms;
            Ok {| current_array := current_array st;
                  mode_string := PyStr ms;
                  video_modes := video_modes st ++ [mode];
                  printed := printed st ++ out |}
          else
            Ok {| current_array := current_array st;
                  mode_string := PyStr ms;
                  video_modes := video_modes st; printed := printed st |}
        else Ok st
    end.

Fixpoint run (arrays_to_include : list string) (lines : list string)
    (st : scan) : result scan :=
  match lines with
  | [] => Ok st
  | line :: lines' =>
      st' ← step arrays_to_include st line;
      run arrays_to_include lines' st'
  end.

Definition init : scan :=
  {| current_array := None; mode_string := Unbound;
     video_modes := []; printed := [] |}.

(** [parse_c_file] returns [video_modes]; the second component is what the
    run printed.  When an exception ends the run, neither is kept. *)
Definition parse_c_file (file_content : string)
    (arrays_to_include : list string)
    : result (list VideoMode * list warning) :=
  st ← run arrays_to_include (split nl file_content) init;
  Ok (video_modes st, printed st).

(** * [create_vhdl_pkg.py]

    The second script reads the list that [get_timings.py] wrote to
    [video_timings.json] and renders it as a VHDL package.  Its input is
    modelled as a list of [VideoMode] records: the objects of the file
    with their twenty keys, integers as [Z].  Reading and writing the
    files is not modelled. *)

(** [str(z)] for an integer. *)
Definition str_of_int (z : Z) : string := NilZero.string_of_int (Z.to_int z).

(** [str(b)] for a boolean. *)
Definition str_of_bool (b : bool) : string := if b then "True" else "False".

Fixpoint spaces (n : nat) : string :=
  match n with
  | O => ""
  | S n' => String " " (spaces n')
  end.

(** The format specifications [<w] and [>w]: padding with spaces up to the
    width [w], on the right and on the left; a longer text is not cut. *)
Definition ljust (w : nat) (s : string) : string :=
  s ++ spaces (w - String.length s).
Definition rjust (w : nat) (s : string) : string :=
  spaces (w - String.length s) ++ s.

(** [max(l)] for a list of integers. *)
Definition py_max (l : list Z) : result Z :=
  match l with
  | [] => Err ValueError
  | x :: l' => Ok (foldl Z.max x l')
  end.

(** Lines 50 to 80: the text before the records, for the upper bound
    [max_index] of the array. *)
Definition package_head (max_index : Z) : string :=
  String.concat nl
    [ "";
      "library IEEE;";
      "use IEEE.STD_LOGIC_1164.ALL;";
      "";
      "package video_timings_pkg is";
      "";
      "    type video_timing_r is record";
      "        name        : string(1 to 20);";
      "        vic         : natural range 0 to 255;";
      "        pxl_clk_khz : natural range 0 to 2**13-1;";
      "        interlaced  : boolean;";
      "        dbl_clkd    : boolean;";
      "        hactive     : natural range 0 to 2**13-1;";
      "        vactive     : natural range 0 to 2**13-1;";
      "        hfront      : natural range 0 to 2**13-1;";
      "        hsync       : natural range 0 to 2**13-1;";
      "        hback       : natural range 0 to 2**13-1;";
      "        hpol        : std_logic;";
      "        vfront      : natural range 0 to 2**13-1;";
      "        vsync       : natural range 0 to 2**13-1;";
      "        vback       : natural range 0 to 2**13-1;";
      "        vpol        : std_logic;";
      "        ln          : integer range 0 to 7;";
      "    end record;";
      "";
      "    type video_timings_a is array (0 to " ++ str_of_int max_index ++
        ") of video_timing_r;";
      "";
      "    constant video_timings : video_timings_a := (";
      "    --  VIC    |  Name              | VIC | Pixel Clk kHz | " ++
        "interlaced | double clocked | hactive | vactive | hfront | " ++
        "hsync | hback | hpol | vfront | vsync | vback | vpol | ln";
      "" ].

(** Lines 84 to 101: the text of one record. *)
Definition mode_record (mode : VideoMode) : string :=
  nl ++ "        " ++ rjust 3 (str_of_int (vic mode)) ++ " => (" ++
  dq ++ ljust 20 (name mode) ++ dq ++ ", " ++
  rjust 4 (str_of_int (vic mode)) ++ ", " ++
  rjust 14 (str_of_int (pxl_clk_khz mode)) ++ ", " ++
  rjust 11 (lower_str (str_of_bool (interlaced mode))) ++ ", " ++
  rjust 15 (lower_str (str_of_bool (double_clocked mode))) ++ ", " ++
  rjust 8 (str_of_int (hactive mode)) ++ ", " ++
  rjust 8 (str_of_int (vactive mode)) ++ ", " ++
  rjust 7 (str_of_int (hfront mode)) ++ ", " ++
  rjust 6 (str_of_int (hsync mode)) ++ ", " ++
  rjust 6 (str_of_int (hback mode)) ++ ",   '" ++
  str_of_int (hpol mode) ++ "', " ++
  rjust 7 (str_of_int (vfront mode)) ++ ", " ++
  rjust 6 (str_of_int (vsync mode)) ++ ", " ++
  rjust 6 (str_of_int (vback mode)) ++ ",   '" ++
  str_of_int (vpol mode) ++ "',  " ++
  str_of_int (ln mode) ++ " ),".

(** Line 104: the text after the records. *)
Definition package_tail : string :=
  nl ++ "     others => (" ++ dq ++ "--------------------" ++ dq ++
  ",    0,              0,       false,           false,        0," ++
  "        0,       0,      0,      0,   '0',       0,      0,      0," ++
  "   '0',  0 )" ++ nl ++ "    );" ++ nl ++
  "end package video_timings_pkg;" ++ nl.

(** Lines 50 to 104: the text of the package. *)
Definition vhdl_package (video_timings : list VideoMode) : result string :=
  max_index ← py_max (vic <$> video_timings);
  Ok (foldl (fun text mode => text ++ mode_record mode)
        (package_head max_index) video_timings ++ package_tail).

(** * Notions of the statements

    What follows is not part of the script: the words of the claims,
    the two readings of the specification that the code is compared
    with, and the inputs of the examples. *)

(** ** Accepted records and flags *)

(** A record is accepted when [parse_mode_string] returns it. *)
Definition accepted (m : VideoMode) : Prop :=
  exists s out, parse_mode_string s = Ok (m, out).

(** The record [m] is what [parse_mode_string] returns for [block]. *)
Definition record_of (block : string) (m : VideoMode) : Prop :=
  exists out, parse_mode_string block = Ok (m, out).

(** Exactly one of the flags [a] and [b] is among [flags]. *)
Definition exactly_one (a b : string) (flags : list string) : Prop :=
  (a ∈ flags /\ ~ (b ∈ flags)) \/ (~ (a ∈ flags) /\ b ∈ flags).

#[global] Instance exactly_one_dec (a b : string) (flags : list string) :
  Decision (exactly_one a b flags).
Proof. unfold exactly_one. apply _. Defined.

(** The rate [clock * 1000 / (vt * ht)] is exactly [num / den] times the
    rate [stated], as rational numbers. *)
Definition rate_ratio (clock vt ht stated num den : Z) : Prop :=
  clock * 1000 * den = vt * ht * stated * num.

(** The warning of line 141. *)
Definition rate_warning (c : ParsedComment) (fps : float) : warning :=
  {| warn_name := cmnt_name c; warn_freq := cmnt_freq c; warn_fps := fps |}.

(** ** First occurrences *)

(** The piece before the first occurrence of [sep], or the whole text. *)
Definition before (sep s : string) : string :=
  match partition sep s with
  | Some (a, _) => a
  | None => s
  end.

Definition char (c : ascii) : string := String c "".

(** The last piece of a split. *)
Definition last_piece (l : list string) : string := List.last l "".

(** [c] appended to the last piece. *)
Fixpoint snoc_last (l : list string) (c : ascii) : list string :=
  match l with
  | [] => []
  | [h] => [h ++ char c]
  | h :: t => h :: snoc_last t c
  end.

(** ** The specification's parameter list *)

(** Following the specification (section 4.2): the text before the
    parenthesis that closes the one opened before [s], where [depth]
    parentheses opened inside [s] are still to be closed. *)
Fixpoint matching_close (depth : nat) (s : string) : option string :=
  match s with
  | "" => None
  | String c s' =>
      if Ascii.eqb c ")" then
        match depth with
        | O => Some ""
        | S d => String c <$> matching_close d s'
        end
      else if Ascii.eqb c "(" then String c <$> matching_close (S depth) s'
      else String c <$> matching_close depth s'
  end.

(** Following the specification (section 4.2): the text strictly between
    the first parenthesis after the comment-close delimiter and its
    matching close parenthesis. *)
Definition balanced_parameter_list (block : string) : option string :=
  match partition "*/" block with
  | Some (_, after_comment) =>
      match partition "(" after_comment with
      | Some (_, inner) => matching_close 0 inner
      | None => None
      end
  | None => None
  end.

(** ** The specification's Block Scanner *)

(** Following the specification (section 4.1): the Block Scanner on its
    own.  It walks the lines as [parse_c_file] does and collects the text
    of every entry that is flushed, without decoding it. *)
Record block_scan : Type := {
  open_array : option string;
  pending : local_str;
  blocks : list string
}.

Definition step_blocks (arrays_to_include : list string) (st : block_scan)
    (line : string) : result block_scan :=
  let line := strip line in
  if startswith line "};" then
    Ok {| open_array := None; pending := PyNone; blocks := blocks st |}
  else
    d ← declared arrays_to_include line;
    match d with
    | Some array_name =>
        Ok {| open_array := Some array_name; pending := pending st;
              blocks := blocks st |}
    | None =>
        if truthy (open_array st) then
          ms ← accumulate (pending st) line;
          Ok {| open_array := open_array st; pending := PyStr ms;
                blocks := if endswith line "},"
                          then blocks st ++ [ms] else blocks st |}
        else Ok st
    end.

Fixpoint run_blocks (arrays_to_include : list string) (lines : list string)
    (st : block_scan) : result block_scan :=
  match lines with
  | [] => Ok st
  | line :: lines' =>
      st' ← step_blocks arrays_to_include st line;
      run_blocks arrays_to_include lines' st'
  end.

Definition entry_blocks (file_content : string)
    (arrays_to_include : list string) : result (list string) :=
  st ← run_blocks arrays_to_include (split nl file_content)
         {| open_array := None; pending := Unbound; blocks := [] |};
  Ok (blocks st).

(** Lines 67 and 72: the mode identifier in the comment of an entry. *)
Definition block_id (block : string) : result Z :=
  comment ← split_comment block;
  id_str ← item (split "-" comment) 0;
  int (strip id_str).

(** The states of the two scans agree. *)
Definition scans_agree (st : scan) (bst : block_scan) : Prop :=
  current_array st = open_array bst /\
  mode_string st = pending bst /\
  Forall2 record_of (blocks bst) (video_modes st).

(** ** Example inputs *)

Definition tab : string := String (ascii_of_nat 9) "".

(** An entry of the mode table on one line. *)
Definition entry_text (comment name params flags aspect : string) : string :=
  "/* " ++ comment ++ " */ { DRM_MODE(" ++ dq ++ name ++ dq ++
  ", DRM_MODE_TYPE_DRIVER, " ++ params ++ ", " ++ flags ++
  "), .picture_aspect_ratio = HDMI_PICTURE_ASPECT_" ++ aspect ++ ", },".

Definition table_open : string :=
  "static const struct drm_display_mode edid_cea_modes_1[] = {".

(** Mode 16 as [drm_edid.c] lays it out, in a table of its own. *)
Definition doc_1080p : string :=
  String.concat nl
    [ table_open;
      tab ++ "/* 16 - 1920x1080@60Hz 16:9 */";
      tab ++ "{ DRM_MODE(" ++ dq ++ "1920x1080" ++ dq ++
        ", DRM_MODE_TYPE_DRIVER, 148500, 1920, 2008,";
      tab ++ tab ++ "   2052, 2200, 0, 1080, 1084, 1089, 1125, 0,";
      tab ++ tab ++ "   DRM_MODE_FLAG_PHSYNC | DRM_MODE_FLAG_PVSYNC),";
      tab ++ "  .picture_aspect_ratio = HDMI_PICTURE_ASPECT_16_9, },";
      "};";
      "" ].

Definition mode_1080p : VideoMode :=
  {| vic := 16; name := "1920x1080@60Hz"; pxl_clk_khz := 148500;
     hactive := 1920; vactive := 1080;
     interlaced := false; double_clocked := false;
     htotal := 2200; hblank := 280; hfront := 88; hsync := 44; hback := 148;
     hpol := 1;
     vtotal := 1125; vblank := 45; vfront := 4; vsync := 5; vback := 36;
     vpol := 1; ln := 1 |}.

Definition entry_1080p : string :=
  entry_text "16 - 1920x1080@60Hz 16:9" "1920x1080"
    "148500, 1920, 2008, 2052, 2200, 0, 1080, 1084, 1089, 1125, 0"
    "DRM_MODE_FLAG_PHSYNC | DRM_MODE_FLAG_PVSYNC" "16_9".

(** Mode 16 without a vertical polarity flag, and with both. *)
Definition entry_no_vpol : string :=
  entry_text "16 - 1920x1080@60Hz 16:9" "1920x1080"
    "148500, 1920, 2008, 2052, 2200, 0, 1080, 1084, 1089, 1125, 0"
    "DRM_MODE_FLAG_PHSYNC" "16_9".
Definition entry_both_vpol : string :=
  entry_text "16 - 1920x1080@60Hz 16:9" "1920x1080"
    "148500, 1920, 2008, 2052, 2200, 0, 1080, 1084, 1089, 1125, 0"
    "DRM_MODE_FLAG_PHSYNC | DRM_MODE_FLAG_PVSYNC | DRM_MODE_FLAG_NVSYNC" "16_9".

(** A 1080i entry whose comment and name carry the interlace suffix, whose
    flags lack [DRM_MODE_FLAG_INTERLACE], and whose comment states the rate
    that the timings give without doubling. *)
Definition entry_1080i_unflagged : string :=
  entry_text "5 - 1920x1080i@30Hz 16:9" "1920x1080i"
    "74250, 1920, 2008, 2052, 2200, 0, 1080, 1084, 1094, 1125, 0"
    "DRM_MODE_FLAG_PHSYNC | DRM_MODE_FLAG_PVSYNC" "16_9".

(** The same timings with the flag set, under a name without the suffix. *)
Definition entry_1080i_unnamed : string :=
  entry_text "5 - 1920x1080i@60Hz 16:9" "1920x1080"
    "74250, 1920, 2008, 2052, 2200, 0, 1080, 1084, 1094, 1125, 0"
    "DRM_MODE_FLAG_PHSYNC | DRM_MODE_FLAG_PVSYNC | DRM_MODE_FLAG_INTERLACE"
    "16_9".

(** Mode 16 with the start of the horizontal sync pulse before the end of
    the active part. *)
Definition entry_early_sync : string :=
  entry_text "16 - 1920x1080@60Hz 16:9" "1920x1080"
    "148500, 1920, 1900, 2052, 2200, 0, 1080, 1084, 1089, 1125, 0"
    "DRM_MODE_FLAG_PHSYNC | DRM_MODE_FLAG_PVSYNC" "16_9".

(** A table that ends after the first two lines of its second entry. *)
Definition doc_truncated : string :=
  String.concat nl
    [ table_open; entry_1080p; "/* 17 - 720x576@50Hz 4:3 */"; "{ DRM_MODE(" ].

Definition scan_truncated : scan :=
  {| current_array := Some "edid_cea_modes_1";
     mode_string := PyStr "/* 17 - 720x576@50Hz 4:3 */{ DRM_MODE(";
     video_modes := [mode_1080p]; printed := [] |}.

(** Mode 16 with its clock in parentheses. *)
Definition entry_nested : string :=
  entry_text "16 - 1920x1080@60Hz 16:9" "1920x1080"
    "(148500), 1920, 2008, 2052, 2200, 0, 1080, 1084, 1089, 1125, 0"
    "DRM_MODE_FLAG_PHSYNC | DRM_MODE_FLAG_PVSYNC" "16_9".

(** A table with the entry of mode 16 twice. *)
Definition doc_twice : string :=
  String.concat nl [ table_open; entry_1080p; entry_1080p; "};" ].

(** A 10x10 mode of 100 lines of 100 pixels, stated as 100 Hz, with the
    given pixel clock in kHz: a clock of 1000 kHz gives 100 Hz. *)
Definition entry_rate (clock : string) : string :=
  entry_text "200 - 10x10@100Hz 4:3" "10x10"
    (clock ++ ", 10, 20, 30, 100, 0, 10, 20, 30, 100, 0")
    "DRM_MODE_FLAG_PHSYNC | DRM_MODE_FLAG_PVSYNC" "4_3".

Definition mode_rate (clock : Z) : VideoMode :=
  {| vic := 200; name := "10x10@100Hz"; pxl_clk_khz := clock;
     hactive := 10; vactive := 10;
     interlaced := false; double_clocked := false;
     htotal := 100; hblank := 90; hfront := 10; hsync := 10; hback := 70;
     hpol := 1;
     vtotal := 100; vblank := 90; vfront := 10; vsync := 10; vback := 70;
     vpol := 1; ln := 1 |}.

(** Mode 5 of the kernel table, 1920x1080i, with the interlace flag set:
    2200 x 1125 pixel periods per frame, under a comment that states the
    rate [rate] and a macro with the clock [clock]. *)
Definition entry_1080i (rate clock : string) : string :=
  entry_text ("5 - 1920x1080i@" ++ rate ++ "Hz 16:9") "1920x1080i"
    (clock ++ ", 1920, 2008, 2052, 2200, 0, 1080, 1084, 1094, 1125, 0")
    "DRM_MODE_FLAG_PHSYNC | DRM_MODE_FLAG_PVSYNC | DRM_MODE_FLAG_INTERLACE"
    "16_9".

Definition mode_1080i (clock : Z) : VideoMode :=
  {| vic := 5; name := "1920x1080i@60Hz"; pxl_clk_khz := clock;
     hactive := 1920; vactive := 1080;
     interlaced := true; double_clocked := false;
     htotal := 2200; hblank := 280; hfront := 88; hsync := 44; hback := 148;
     hpol := 1;
     vtotal := 1125; vblank := 45; vfront := 4; vsync := 10; vback := 31;
     vpol := 1; ln := 1 |}.

(** ** Inputs of the further properties *)

(** A mode whose lines have no pixels: h-total is 0. *)
Definition entry_zero_total : string :=
  entry_text "200 - 10x10@100Hz 4:3" "10x10"
    "1000, 10, 20, 30, 0, 0, 10, 20, 30, 100, 0"
    "DRM_MODE_FLAG_PHSYNC | DRM_MODE_FLAG_PVSYNC" "4_3".

(** Mode 16 with a flag that the script does not know. *)
Definition entry_unknown_flag : string :=
  entry_text "16 - 1920x1080@60Hz 16:9" "1920x1080"
    "148500, 1920, 2008, 2052, 2200, 0, 1080, 1084, 1089, 1125, 0"
    "DRM_MODE_FLAG_PHSYNC | DRM_MODE_FLAG_PVSYNC | DRM_MODE_FLAG_CSYNC" "16_9".

(** Mode 6 of the kernel table, 720(1440)x480i: double clocked and
    interlaced. *)
Definition entry_480i : string :=
  entry_text "6 - 720(1440)x480i@60Hz 4:3" "720x480i"
    "13500, 720, 739, 801, 858, 0, 480, 488, 494, 525, 0"
    ("DRM_MODE_FLAG_NHSYNC | DRM_MODE_FLAG_NVSYNC | " ++
     "DRM_MODE_FLAG_INTERLACE | DRM_MODE_FLAG_DBLCLK") "4_3".

(** The comment of a mode whose rate is written as [nan]. *)
Definition comment_nan : ParsedComment :=
  {| cmnt_cta861_id := 200; cmnt_name := "10x10@nanHz"; cmnt_freq := "nan";
     cmnt_dbl_clocked := false; cmnt_hres := 10; cmnt_dbl_hres := None;
     cmnt_interlaced := false; cmnt_vres := 10;
     cmnt_aspect_nom := 4; cmnt_aspect_denom := 3 |}.

(** [s] without the occurrences of the character [ch]. *)
Fixpoint remove_char (ch : ascii) (s : string) : string :=
  match s with
  | "" => ""
  | String c s' =>
      if Ascii.eqb ch c then remove_char ch s' else String c (remove_char ch s')
  end.

(** The parameter list of mode 16, as line 68 cuts it out of the entry. *)
Definition macro_1080p : string :=
  dq ++ "1920x1080" ++ dq ++ ", DRM_MODE_TYPE_DRIVER, 148500, 1920, 2008, " ++
  "2052, 2200, 0, 1080, 1084, 1089, 1125, 0, " ++
  "DRM_MODE_FLAG_PHSYNC | DRM_MODE_FLAG_PVSYNC".

(** ** The lines of a table *)

(** The text that the loop of [parse_c_file] collects from the lines of
    one entry: the lines, each stripped, one after the other. *)
Definition entry_text_of (lines : list string) : string :=
  String.concat "" (List.map strip lines).

(** The line starts the declaration of a mode table and has fewer than
    five words: line 184 finds no name. *)
Definition cut_short (line : string) : bool :=
  startswith line "static const struct drm_display_mode" &&
  (length (split_ws line) <? 5)%nat.

(** Lines 183 to 185 pass the line over: it does not start the declaration
    of a mode table, or it does, has a fifth word, and the name in that
    word is not in the include list. *)
Definition passed_over (arrays : list string) (line : string) : Prop :=
  startswith line "static const struct drm_display_mode" = false \/
  exists tok, split_ws line !! 4%nat = Some tok /\
              ~ (strip (before "[" tok) ∈ arrays).

(** A line that goes on with the entry that is being collected: it does
    not start a comment, it does not close the array, and lines 183 to
    185 pass it over without an error, which is [passed_over]: it is not
    the declaration of a mode table, or it is one of at least five words
    that names an array outside the include list. *)
Definition continuation (arrays : list string) (line : string) : Prop :=
  startswith (strip line) "/*" = false /\
  startswith (strip line) "};" = false /\
  declared arrays (strip line) = Ok None.

(** The lines of one entry: the first starts with the comment opener,
    every later one is a [continuation], and the last is the only one
    that ends with the entry terminator. *)
Inductive entry_lines (arrays : list string) : list string -> Prop :=
| entry_one_line (first : string) :
    startswith (strip first) "/*" = true ->
    endswith (strip first) "}," = true ->
    entry_lines arrays [first]
| entry_more_lines (first : string) (mid : list string) (final : string) :
    startswith (strip first) "/*" = true ->
    endswith (strip first) "}," = false ->
    Forall (fun l => continuation arrays l /\
                     endswith (strip l) "}," = false) mid ->
    continuation arrays final ->
    endswith (strip final) "}," = true ->
    entry_lines arrays (first :: mid ++ [final]).

(** The state in which an array is open and [text] has been collected. *)
Definition collecting (st : scan) (text : string) : scan :=
  {| current_array := current_array st; mode_string := PyStr text;
     video_modes := video_modes st; printed := printed st |}.

(** The six lines of mode 16 in [doc_1080p], without the line that opens
    the table and the two that follow the entry. *)
Definition lines_1080p : list string :=
  [ tab ++ "/* 16 - 1920x1080@60Hz 16:9 */";
    tab ++ "{ DRM_MODE(" ++ dq ++ "1920x1080" ++ dq ++
      ", DRM_MODE_TYPE_DRIVER, 148500, 1920, 2008,";
    tab ++ tab ++ "   2052, 2200, 0, 1080, 1084, 1089, 1125, 0,";
    tab ++ tab ++ "   DRM_MODE_FLAG_PHSYNC | DRM_MODE_FLAG_PVSYNC),";
    tab ++ "  .picture_aspect_ratio = HDMI_PICTURE_ASPECT_16_9, }," ].

(** A table that is not in the include list, with one entry. *)
Definition doc_other_table : string :=
  String.concat nl
    [ "static const struct drm_display_mode edid_est_modes[] = {";
      entry_1080p; "};" ].

(** A table whose first line after the declaration is not a comment. *)
Definition doc_no_comment : string :=
  String.concat nl [ table_open; "{ DRM_MODE(" ].

(** A declaration that is cut after the type. *)
Definition doc_short_declaration : string :=
  String.concat nl [ "static const struct drm_display_mode"; "x[] = {" ].

(** The state [st] continues the state [fresh] of a run from the start of
    a text, after the records [modes] and the warnings [out]: the same
    array is open, the text that [fresh] has collected is collected in
    [st], and [st] holds the records and warnings of [fresh] after
    [modes] and [out]. *)
Definition continues (modes : list VideoMode) (out : list warning)
    (st fresh : scan) : Prop :=
  current_array st = current_array fresh /\
  (forall text,
     mode_string fresh = PyStr text -> mode_string st = PyStr text) /\
  video_modes st = (modes ++ video_modes fresh)%list /\
  printed st = (out ++ printed fresh)%list.

(** Two tables, of mode 16 and of the 100 Hz mode with a clock of
    1004 kHz, and the text of both, one after the other. *)
Definition doc_first_table : string :=
  String.concat nl [ table_open; entry_1080p; "};" ].
Definition doc_second_table : string :=
  String.concat nl
    [ "static const struct drm_display_mode edid_cea_modes_193[] = {";
      entry_rate "1000"; "};" ].
Definition doc_both_tables : string :=
  doc_first_table ++ nl ++ doc_second_table.

(** ** The columns of the VHDL table *)

(** The number of characters of [str(z)]. *)
Definition width (z : Z) : nat := String.length (str_of_int z).

(** Every field of the record fits its column: the name has at most
    twenty characters, the padded numbers at most the width of their
    format, and the three numbers that are not padded one character. *)
Definition fits_columns (mode : VideoMode) : Prop :=
  (String.length (name mode) <= 20)%nat /\
  (width (vic mode) <= 3)%nat /\
  (width (pxl_clk_khz mode) <= 14)%nat /\
  (width (hactive mode) <= 8)%nat /\ (width (vactive mode) <= 8)%nat /\
  (width (hfront mode) <= 7)%nat /\ (width (hsync mode) <= 6)%nat /\
  (width (hback mode) <= 6)%nat /\ width (hpol mode) = 1%nat /\
  (width (vfront mode) <= 7)%nat /\ (width (vsync mode) <= 6)%nat /\
  (width (vback mode) <= 6)%nat /\ width (vpol mode) = 1%nat /\
  width (ln mode) = 1%nat.

(** The number of characters of the text of a record whose fields fit. *)
Definition record_width : nat := 182.

(** * Proofs *)

(** ** The error monad *)

Lemma bind_Ok {A B : Type} (m : result A) (f : A -> result B) (b : B) :
  m ≫= f = Ok b -> exists a, m = Ok a /\ f a = Ok b.
Proof.
  destruct m as [a|e]; simpl; intros H; [eauto | discriminate].
Qed.

Lemma bind_Ok_intro {A B : Type} (m : result A) (f : A -> result B) (a : A) :
  m = Ok a -> m ≫= f = f a.
Proof. intros ->. reflexivity. Qed.

Lemma assert_Ok (c : bool) (u : unit) : assert c = Ok u -> c = true.
Proof. destruct c; simpl; [reflexivity | discriminate]. Qed.

Lemma assert_bind {B : Type} (c : bool) (f : unit -> result B) (r : result B) :
  (c = false -> r = Err AssertionError) ->
  (c = true -> f tt = r) ->
  assert c ≫= f = r.
Proof.
  destruct c; simpl; intros Hf Ht; [apply Ht | symmetry; apply Hf]; reflexivity.
Qed.

(** Splits a hypothesis [m ≫= f = Ok b] into its two steps, repeatedly. *)
Ltac inv_bind H :=
  let a := fresh "a" in
  let Ha := fresh "Hstep" in
  lazymatch type of H with
  | mbind _ _ = Ok _ =>
      apply bind_Ok in H; destruct H as (a & Ha & H);
      try (apply assert_Ok in Ha); inv_bind H
  | _ => idtac
  end.

(** ** Strings *)

Lemma str_app_cons (c : ascii) (s t : string) :
  String c s ++ t = String c (s ++ t).
Proof. reflexivity. Qed.

Lemma str_app_nil_r (s : string) : s ++ "" = s.
Proof. induction s as [|c s IH]; [reflexivity|]. rewrite str_app_cons, IH. reflexivity. Qed.

Lemma str_app_assoc (s t u : string) : (s ++ t) ++ u = s ++ (t ++ u).
Proof.
  induction s as [|c s IH]; [reflexivity|].
  rewrite !str_app_cons, IH. reflexivity.
Qed.

Lemma str_length_app (s t : string) :
  String.length (s ++ t) = (String.length s + String.length t)%nat.
Proof.
  induction s as [|c s IH]; [reflexivity|].
  rewrite str_app_cons. simpl. rewrite IH. reflexivity.
Qed.

Lemma rev_length (s : string) : String.length (rev s) = String.length s.
Proof.
  induction s as [|c s IH]; [reflexivity|].
  simpl. rewrite str_length_app, IH. simpl. lia.
Qed.

Lemma rev_app (s t : string) : rev (s ++ t) = rev t ++ rev s.
Proof.
  induction s as [|c s IH].
  - simpl. rewrite str_app_nil_r. reflexivity.
  - rewrite str_app_cons. simpl. rewrite IH, str_app_assoc. reflexivity.
Qed.

Lemma rev_involutive (s : string) : rev (rev s) = s.
Proof.
  induction s as [|c s IH]; [reflexivity|].
  simpl. rewrite rev_app, IH. reflexivity.
Qed.

(** *** [partition] and the number of cuts *)

Lemma partition_eq (sep s : string) :
  partition sep s =
  if String.prefix sep s then Some ("", drop (String.length sep) s)
  else match s with
       | "" => None
       | String c s' =>
           match partition sep s' with
           | Some (a, r) => Some (String c a, r)
           | None => None
           end
       end.
Proof. destruct s; reflexivity. Qed.

Lemma prefix_drop_length (p s : string) :
  String.prefix p s = true ->
  (String.length (drop (String.length p) s) + String.length p
   = String.length s)%nat.
Proof.
  revert s. induction p as [|a p IH]; intros s H.
  - simpl. lia.
  - destruct s as [|b s]; simpl in H; [discriminate|].
    destruct (ascii_dec a b); [|discriminate].
    simpl. specialize (IH s H). lia.
Qed.

Lemma partition_length (sep s a r : string) :
  partition sep s = Some (a, r) ->
  (String.length a + String.length sep + String.length r
   = String.length s)%nat.
Proof.
  revert a r. induction s as [|c s IH]; intros a r H; rewrite partition_eq in H.
  - destruct (String.prefix sep "") eqn:Hp; [|discriminate].
    inversion H; subst. apply prefix_drop_length in Hp. simpl in *. lia.
  - destruct (String.prefix sep (String c s)) eqn:Hp.
    + inversion H; subst. apply prefix_drop_length in Hp. simpl in *. lia.
    + destruct (partition sep s) as [[a' r']|] eqn:Hs; [|discriminate].
      inversion H; subst. specialize (IH _ _ eq_refl). simpl. lia.
Qed.

Lemma splitn_S (n : nat) (sep s : string) :
  splitn (S n) sep s =
  match partition sep s with
  | None => [s]
  | Some (a, r) => a :: splitn n sep r
  end.
Proof. reflexivity. Qed.

Section Separator.

Variable sep : string.
Hypothesis sep_nonempty : sep <> "".

Lemma sep_length : (0 < String.length sep)%nat.
Proof using sep_nonempty. destruct sep; [congruence | simpl; lia]. Qed.

Lemma partition_empty : partition sep "" = None.
Proof using sep_nonempty. destruct sep; [congruence | reflexivity]. Qed.

(** Once the fuel exceeds the length of the text, more fuel changes
    nothing. *)
Lemma splitn_fuel (n : nat) :
  forall (m : nat) (s : string),
    (String.length s <= n)%nat -> (String.length s <= m)%nat ->
    splitn n sep s = splitn m sep s.
Proof using sep_nonempty.
  induction n as [|n IH]; intros m s Hn Hm.
  - destruct s; [|simpl in Hn; lia].
    destruct m; [reflexivity|].
    rewrite splitn_S, partition_empty. reflexivity.
  - destruct m as [|m].
    + destruct s; [|simpl in Hm; lia].
      rewrite splitn_S, partition_empty. reflexivity.
    + rewrite !splitn_S.
      destruct (partition sep s) as [[a r]|] eqn:Hp; [|reflexivity].
      apply partition_length in Hp. pose proof sep_length.
      f_equal. apply IH; lia.
Qed.

(** [split] cuts at the first occurrence and goes on with the rest. *)
Lemma split_unfold (s : string) :
  split sep s =
  match partition sep s with
  | None => [s]
  | Some (a, r) => a :: split sep r
  end.
Proof using sep_nonempty.
  unfold split. destruct s as [|c s].
  - rewrite partition_empty. reflexivity.
  - change (String.length (String c s)) with (S (String.length s)).
    rewrite splitn_S.
    destruct (partition sep (String c s)) as [[a r]|] eqn:Hp; [|reflexivity].
    apply partition_length in Hp. pose proof sep_length.
    f_equal. apply splitn_fuel; [simpl in Hp; lia | lia].
Qed.

Lemma split_nonempty (s : string) : split sep s <> [].
Proof using sep_nonempty.
  rewrite split_unfold. destruct (partition sep s) as [[a r]|]; discriminate.
Qed.

Lemma split_head (s : string) : item (split sep s) 0 = Ok (before sep s).
Proof using sep_nonempty.
  rewrite split_unfold. unfold before.
  destruct (partition sep s) as [[a r]|]; reflexivity.
Qed.

Lemma split_second (s : string) :
  item (split sep s) 1 =
  match partition sep s with
  | Some (_, r) => Ok (before sep r)
  | None => Err IndexError
  end.
Proof using sep_nonempty.
  rewrite split_unfold.
  destruct (partition sep s) as [[a r]|]; [|reflexivity].
  exact (split_head r).
Qed.

End Separator.

(** *** Separators of one character *)

Lemma partition_char_cons (ch c : ascii) (s : string) :
  partition (char ch) (String c s) =
  if Ascii.eqb ch c then Some ("", s)
  else match partition (char ch) s with
       | Some (a, r) => Some (String c a, r)
       | None => None
       end.
Proof.
  rewrite partition_eq. unfold char at 1. simpl String.prefix.
  destruct (ascii_dec ch c) as [->|Hne].
  - rewrite Ascii.eqb_refl. destruct s; reflexivity.
  - apply Ascii.eqb_neq in Hne. rewrite Hne. reflexivity.
Qed.

Lemma char_nonempty (ch : ascii) : char ch <> "".
Proof. discriminate. Qed.

Lemma split_char_nil (ch : ascii) : split (char ch) "" = [""].
Proof. reflexivity. Qed.

Lemma split_char_cons (ch c : ascii) (s : string) :
  split (char ch) (String c s) =
  if Ascii.eqb ch c then "" :: split (char ch) s
  else match split (char ch) s with
       | h :: t => String c h :: t
       | [] => []
       end.
Proof.
  rewrite (split_unfold _ (char_nonempty ch) (String c s)).
  rewrite partition_char_cons.
  destruct (Ascii.eqb ch c); [reflexivity|].
  rewrite (split_unfold _ (char_nonempty ch) s).
  destruct (partition (char ch) s) as [[a r]|]; reflexivity.
Qed.

Lemma before_char_cons (ch c : ascii) (s : string) :
  before (char ch) (String c s) =
  if Ascii.eqb ch c then "" else String c (before (char ch) s).
Proof.
  unfold before. rewrite partition_char_cons.
  destruct (Ascii.eqb ch c); [reflexivity|].
  destruct (partition (char ch) s) as [[a r]|]; reflexivity.
Qed.

Lemma last_piece_snoc_last (l : list string) (c : ascii) :
  l <> [] -> last_piece (snoc_last l c) = last_piece l ++ char c.
Proof.
  induction l as [|h t IH]; [congruence|]. intros _.
  destruct t as [|h2 t]; [reflexivity|].
  change (snoc_last (h :: h2 :: t) c) with (h :: snoc_last (h2 :: t) c).
  change (last_piece (h :: h2 :: t)) with (last_piece (h2 :: t)).
  rewrite <- IH by discriminate.
  unfold last_piece. destruct (snoc_last (h2 :: t) c) eqn:E; [|reflexivity].
  destruct t; discriminate E.
Qed.

Lemma split_char_snoc (ch c : ascii) (s : string) :
  split (char ch) (s ++ char c) =
  if Ascii.eqb ch c then (split (char ch) s ++ [""])%list
  else snoc_last (split (char ch) s) c.
Proof.
  induction s as [|d s IH].
  - change ("" ++ char c) with (String c "").
    rewrite split_char_cons, split_char_nil.
    destruct (Ascii.eqb ch c); reflexivity.
  - rewrite str_app_cons, !split_char_cons, IH.
    pose proof (split_nonempty (char ch) (char_nonempty ch) s) as Hne.
    destruct (split (char ch) s) as [|h t]; [congruence|].
    destruct (Ascii.eqb ch d), (Ascii.eqb ch c); try reflexivity.
    destruct t; reflexivity.
Qed.

Lemma last_piece_split_snoc (ch c : ascii) (s : string) :
  last_piece (split (char ch) (s ++ char c)) =
  if Ascii.eqb ch c then ""
  else last_piece (split (char ch) s) ++ char c.
Proof.
  rewrite split_char_snoc.
  destruct (Ascii.eqb ch c).
  - unfold last_piece. apply List.last_last.
  - apply last_piece_snoc_last, split_nonempty, char_nonempty.
Qed.

Lemma last_piece_split_rev (ch : ascii) (s : string) :
  last_piece (split (char ch) (rev s)) = rev (before (char ch) s).
Proof.
  induction s as [|c s IH]; [reflexivity|].
  change (rev (String c s)) with (rev s ++ char c).
  rewrite last_piece_split_snoc, before_char_cons.
  destruct (Ascii.eqb ch c); [reflexivity|].
  rewrite IH. reflexivity.
Qed.

Lemma item_rev_head {A B : Type} (f : A -> B) (d : A) (l : list A) :
  l <> [] -> item (List.map f (List.rev l)) 0 = Ok (f (List.last l d)).
Proof.
  intros Hne. destruct (exists_last Hne) as (l' & a & ->).
  rewrite List.last_last, List.rev_app_distr. reflexivity.
Qed.

(** [s.rsplit(c)[0]] is the text before the first [c]. *)
Lemma rsplit_char_head (ch : ascii) (s : string) :
  item (rsplit (char ch) s) 0 = Ok (before (char ch) s).
Proof.
  unfold rsplit, rsplitn.
  change (rev (char ch)) with (char ch).
  rewrite <- (rev_length s).
  change (splitn (String.length (rev s)) (char ch) (rev s))
    with (split (char ch) (rev s)).
  rewrite (item_rev_head rev "" _ (split_nonempty _ (char_nonempty ch) _)).
  change (List.last (split (char ch) (rev s)) "")
    with (last_piece (split (char ch) (rev s))).
  rewrite last_piece_split_rev, rev_involutive. reflexivity.
Qed.

(** ** The steps of [parse_mode_string] and of the loop *)

(** What [build_mode] puts into the record. *)
Lemma build_mode_fields (c : ParsedComment) (k : ParsedMacro) (m : VideoMode) :
  build_mode c k = Ok m ->
  exists clock hd vd ht hss hse vt vss vse,
    int (mac_clock k) = Ok clock /\
    int (mac_hdisplay k) = Ok hd /\ int (mac_vdisplay k) = Ok vd /\
    int (mac_htotal k) = Ok ht /\
    int (mac_hsync_start k) = Ok hss /\ int (mac_hsync_end k) = Ok hse /\
    int (mac_vtotal k) = Ok vt /\
    int (mac_vsync_start k) = Ok vss /\ int (mac_vsync_end k) = Ok vse /\
    m = {| vic := cmnt_cta861_id c;
           name := mac_name k ++ "@" ++ cmnt_freq c ++ "Hz";
           pxl_clk_khz := clock; hactive := hd; vactive := vd;
           interlaced := mac_interlaced k; double_clocked := mac_dbl_clk k;
           htotal := ht; hblank := ht - hd; hfront := hss - hd;
           hsync := hse - hss; hback := ht - hse;
           hpol := if mac_hsync_neg k then 0 else 1;
           vtotal := vt; vblank := vt - vd; vfront := vss - vd;
           vsync := vse - vss; vback := vt - vse;
           vpol := if mac_vsync_neg k then 0 else 1;
           ln := get_ln (cmnt_cta861_id c) |}.
Proof.
  unfold build_mode. intros H. inv_bind H.
  inversion H; subst. do 9 eexists. repeat (split; [eassumption|]). reflexivity.
Qed.

(** The steps of an accepting call of [parse_mode_string]. *)
Lemma parse_mode_string_Ok (s : string) (m : VideoMode) (out : list warning) :
  parse_mode_string s = Ok (m, out) ->
  exists c k aspect fps,
    decode s = Ok (c, k, aspect) /\
    check_consistency c k aspect = Ok tt /\
    fps_calc k = Ok fps /\
    check_fps c fps = Ok out /\
    build_mode c k = Ok m.
Proof.
  unfold parse_mode_string. intros H.
  apply bind_Ok in H. destruct H as ([[c k] aspect] & Hd & H).
  apply bind_Ok in H. destruct H as ([] & Hc & H).
  apply bind_Ok in H. destruct H as (fps & Hf & H).
  apply bind_Ok in H. destruct H as (out' & Hw & H).
  apply bind_Ok in H. destruct H as (m' & Hb & H).
  inversion H; subst. exists c, k, aspect, fps. auto.
Qed.

Lemma step_video_modes (arrays : list string) (st st' : scan) (line : string) :
  step arrays st line = Ok st' ->
  video_modes st' = video_modes st \/
  exists m, accepted m /\ video_modes st' = (video_modes st ++ [m])%list.
Proof.
  unfold step. intros H.
  destruct (startswith (strip line) "};").
  { inversion H; subst; simpl; auto. }
  apply bind_Ok in H. destruct H as (d & _ & H).
  destruct d as [array_name|].
  { inversion H; subst; simpl; auto. }
  destruct (truthy (current_array st)).
  2: { inversion H; subst; auto. }
  apply bind_Ok in H. destruct H as (ms & _ & H).
  destruct (endswith (strip line) "},").
  - apply bind_Ok in H. destruct H as ([m out] & Hm & H).
    inversion H; subst; simpl. right. exists m. split; [|reflexivity].
    exists ms, out. exact Hm.
  - inversion H; subst; simpl; auto.
Qed.

Lemma run_accepted (arrays : list string) (lines : list string) :
  forall st st', run arrays lines st = Ok st' ->
  Forall accepted (video_modes st) -> Forall accepted (video_modes st').
Proof.
  induction lines as [|line lines IH]; simpl; intros st st' H Hst.
  - inversion H; subst; exact Hst.
  - apply bind_Ok in H. destruct H as (st1 & H1 & H).
    apply (IH _ _ H).
    destruct (step_video_modes _ _ _ _ H1) as [->|(m & Hm & ->)]; [exact Hst|].
    apply Forall_app; split; [exact Hst|]. constructor; [exact Hm | constructor].
Qed.

Lemma parse_c_file_accepted (content : string) (arrays : list string)
    (modes : list VideoMode) (out : list warning) :
  parse_c_file content arrays = Ok (modes, out) -> Forall accepted modes.
Proof.
  unfold parse_c_file. intros H.
  apply bind_Ok in H. destruct H as (st & Hrun & H).
  inversion H; subst.
  apply (run_accepted _ _ _ _ Hrun). constructor.
Qed.

(** ** The flags of an entry *)

(** Equality of two small sets of flags, element by element. *)
Ltac flag_sets :=
  apply set_eq; intros ?;
  rewrite ?elem_of_intersection, ?elem_of_union, ?elem_of_singleton,
    ?elem_of_empty;
  intuition congruence.

Lemma size_pair_inter (a b : string) (X : gset string) :
  a <> b ->
  size (({[ a; b ]} : gset string) ∩ X) = 1%nat ->
  (a ∈ X /\ ~ (b ∈ X)) \/ (~ (a ∈ X) /\ b ∈ X).
Proof.
  intros Hab Hsz.
  destruct (decide (a ∈ X)) as [Ha|Ha], (decide (b ∈ X)) as [Hb|Hb]; auto.
  - exfalso.
    assert (E : ({[ a; b ]} : gset string) ∩ X = {[ a ]} ∪ {[ b ]}) by flag_sets.
    rewrite E, size_union, !size_singleton in Hsz by set_solver. discriminate.
  - exfalso.
    assert (E : ({[ a; b ]} : gset string) ∩ X = ∅) by flag_sets.
    rewrite E, size_empty in Hsz. discriminate.
Qed.

Lemma size_pair_inter_inv (a b : string) (X : gset string) :
  a <> b ->
  (a ∈ X /\ ~ (b ∈ X)) \/ (~ (a ∈ X) /\ b ∈ X) ->
  size (({[ a; b ]} : gset string) ∩ X) = 1%nat.
Proof.
  intros Hab [[Ha Hb]|[Ha Hb]].
  - assert (E : ({[ a; b ]} : gset string) ∩ X = {[ a ]}) by flag_sets.
    rewrite E. apply size_singleton.
  - assert (E : ({[ a; b ]} : gset string) ∩ X = {[ b ]}) by flag_sets.
    rewrite E. apply size_singleton.
Qed.

Lemma exactly_one_size (a b : string) (flags : list string) :
  a <> b ->
  size (({[ a; b ]} : gset string) ∩ list_to_set flags) = 1%nat <->
  exactly_one a b flags.
Proof.
  intros Hab. unfold exactly_one.
  rewrite <- !(elem_of_list_to_set (C := gset string)).
  split; [apply size_pair_inter | apply size_pair_inter_inv]; exact Hab.
Qed.

(** What the assertions of lines 118 to 124 establish. *)
Lemma check_consistency_Ok (c : ParsedComment) (k : ParsedMacro)
    (aspect : Z * Z) :
  check_consistency c k aspect = Ok tt ->
  exactly_one "DRM_MODE_FLAG_NHSYNC" "DRM_MODE_FLAG_PHSYNC" (mac_flags k) /\
  exactly_one "DRM_MODE_FLAG_NVSYNC" "DRM_MODE_FLAG_PVSYNC" (mac_flags k) /\
  (mac_interlaced k = true ->
   mac_name_interlaced k = true /\ cmnt_interlaced c = true).
Proof.
  unfold check_consistency. intros H.
  apply bind_Ok in H. destruct H as (_ & _ & H).
  apply bind_Ok in H. destruct H as (? & Hh & H). apply assert_Ok in Hh.
  apply bind_Ok in H. destruct H as (? & Hv & H). apply assert_Ok in Hv.
  apply bind_Ok in H. destruct H as (? & Hi & _).
  apply bool_decide_eq_true in Hh, Hv.
  split; [apply exactly_one_size; [discriminate | exact Hh] |].
  split; [apply exactly_one_size; [discriminate | exact Hv] |].
  intros Hk. rewrite Hk in Hi.
  apply bind_Ok in Hi. destruct Hi as (? & Hn & Hc).
  apply assert_Ok in Hn, Hc. auto.
Qed.

(** A failed assertion among the first three, or in the interlace block,
    ends [parse_mode_string] with an [AssertionError]. *)
Lemma check_consistency_polarity_Err (c : ParsedComment) (k : ParsedMacro)
    (aspect : Z * Z) :
  ~ (exactly_one "DRM_MODE_FLAG_NHSYNC" "DRM_MODE_FLAG_PHSYNC" (mac_flags k) /\
     exactly_one "DRM_MODE_FLAG_NVSYNC" "DRM_MODE_FLAG_PVSYNC" (mac_flags k)) ->
  check_consistency c k aspect = Err AssertionError.
Proof.
  unfold check_consistency. intros Hno.
  apply assert_bind; [reflexivity | intros _].
  apply assert_bind; [reflexivity | intros Hh].
  apply assert_bind; [reflexivity | intros Hv].
  apply bool_decide_eq_true in Hh, Hv.
  exfalso. apply Hno.
  split; apply exactly_one_size; [discriminate | exact Hh | discriminate | exact Hv].
Qed.

Lemma check_consistency_interlace_Err (c : ParsedComment) (k : ParsedMacro)
    (aspect : Z * Z) :
  mac_interlaced k = true ->
  mac_name_interlaced k = false \/ cmnt_interlaced c = false ->
  check_consistency c k aspect = Err AssertionError.
Proof.
  unfold check_consistency. intros Hk Hno.
  apply assert_bind; [reflexivity | intros _].
  apply assert_bind; [reflexivity | intros _].
  apply assert_bind; [reflexivity | intros _].
  rewrite Hk.
  destruct (mac_name_interlaced k); simpl; [|reflexivity].
  destruct (cmnt_interlaced c); simpl; [|reflexivity].
  destruct Hno; discriminate.
Qed.

(** The boolean flags of [parse_macro] are read off [mac_flags]. *)
Lemma parse_macro_flags (macro : string) (k : ParsedMacro) :
  parse_macro macro = Ok k ->
  mac_dbl_clk k = bool_decide ("DRM_MODE_FLAG_DBLCLK" ∈ mac_flags k) /\
  mac_interlaced k = bool_decide ("DRM_MODE_FLAG_INTERLACE" ∈ mac_flags k) /\
  mac_hsync_neg k = bool_decide ("DRM_MODE_FLAG_NHSYNC" ∈ mac_flags k) /\
  mac_vsync_neg k = bool_decide ("DRM_MODE_FLAG_NVSYNC" ∈ mac_flags k).
Proof.
  unfold parse_macro. intros H.
  repeat (match type of H with
          | match ?l with [] => _ | _ :: _ => _ end = _ =>
              destruct l; [discriminate H|]
          end).
  match type of H with
  | match ?l with [] => _ | _ :: _ => _ end = _ => destruct l; [|discriminate H]
  end.
  apply bind_Ok in H. destruct H as (? & _ & H).
  apply bind_Ok in H. destruct H as ([? ?] & _ & H).
  inversion H; subst; simpl. auto.
Qed.

Lemma decode_macro_flags (s : string) (c : ParsedComment) (k : ParsedMacro)
    (aspect : Z * Z) :
  decode s = Ok (c, k, aspect) ->
  mac_interlaced k = bool_decide ("DRM_MODE_FLAG_INTERLACE" ∈ mac_flags k) /\
  mac_hsync_neg k = bool_decide ("DRM_MODE_FLAG_NHSYNC" ∈ mac_flags k) /\
  mac_vsync_neg k = bool_decide ("DRM_MODE_FLAG_NVSYNC" ∈ mac_flags k).
Proof.
  unfold decode. intros H. inv_bind H. inversion H; subst.
  match goal with
  | Hm : parse_macro _ = Ok k |- _ =>
      destruct (parse_macro_flags _ _ Hm) as (_ & ? & ? & ?)
  end. auto.
Qed.

(** ** The two scans *)

Lemma step_blocks_agree (arrays : list string) (line : string)
    (st st' : scan) (bst : block_scan) :
  step arrays st line = Ok st' ->
  scans_agree st bst ->
  exists bst', step_blocks arrays bst line = Ok bst' /\ scans_agree st' bst'.
Proof.
  unfold step, step_blocks. intros H (Ha & Hp & Hb).
  destruct (startswith (strip line) "};").
  { inversion H; subst. eexists. split; [reflexivity|].
    repeat split; assumption. }
  destruct (declared arrays (strip line)) as [d|e]; [|discriminate H].
  simpl in H |- *. destruct d as [array_name|].
  { inversion H; subst. eexists. split; [reflexivity|].
    repeat split; assumption. }
  rewrite <- Ha, <- Hp.
  destruct (truthy (current_array st)).
  2: { inversion H; subst. eexists. split; [reflexivity|].
       repeat split; assumption. }
  destruct (accumulate (mode_string st) (strip line)) as [ms|e];
    [|discriminate H].
  simpl in H |- *.
  destruct (endswith (strip line) "},").
  - apply bind_Ok in H. destruct H as ([m out] & Hm & H).
    inversion H; subst. eexists. split; [reflexivity|].
    repeat split; simpl; try assumption.
    apply Forall2_app; [assumption|].
    constructor; [exists out; exact Hm | constructor].
  - inversion H; subst. eexists. split; [reflexivity|].
    repeat split; assumption.
Qed.

Lemma run_blocks_agree (arrays : list string) (lines : list string) :
  forall (st st' : scan) (bst : block_scan),
    run arrays lines st = Ok st' ->
    scans_agree st bst ->
    exists bst', run_blocks arrays lines bst = Ok bst' /\ scans_agree st' bst'.
Proof.
  induction lines as [|line lines IH]; simpl; intros st st' bst H Hag.
  - inversion H; subst. exists bst. split; [reflexivity | exact Hag].
  - apply bind_Ok in H. destruct H as (st1 & H1 & H).
    destruct (step_blocks_agree _ _ _ _ _ H1 Hag) as (bst1 & Hb1 & Hag1).
    rewrite Hb1. simpl. exact (IH _ _ _ H Hag1).
Qed.

(** The identifier of a record is the one in the comment of its entry. *)
Lemma record_of_block_id (block : string) (m : VideoMode) :
  record_of block m -> block_id block = Ok (vic m).
Proof.
  intros (out & Hs). apply parse_mode_string_Ok in Hs.
  destruct Hs as (c & k & aspect & fps & Hd & _ & _ & _ & Hb).
  apply build_mode_fields in Hb.
  destruct Hb as (? & ? & ? & ? & ? & ? & ? & ? & ? & Hm).
  destruct Hm as (_ & _ & _ & _ & _ & _ & _ & _ & _ & ->). simpl.
  unfold decode in Hd.
  apply bind_Ok in Hd. destruct Hd as (comment & Hcm & Hd).
  apply bind_Ok in Hd. destruct Hd as (macro & _ & Hd).
  apply bind_Ok in Hd. destruct Hd as (aspect_elmnt & _ & Hd).
  apply bind_Ok in Hd. destruct Hd as (c' & Hpc & Hd).
  apply bind_Ok in Hd. destruct Hd as (k' & _ & Hd).
  apply bind_Ok in Hd. destruct Hd as (aspect' & _ & Hd).
  inversion Hd; subst c' k' aspect'.
  unfold block_id. rewrite Hcm. simpl.
  unfold parse_comment in Hpc.
  apply bind_Ok in Hpc. destruct Hpc as (id_str & Hid & Hpc).
  apply bind_Ok in Hpc. destruct Hpc as (id & Hint & Hpc).
  rewrite Hid. simpl. rewrite Hint. f_equal.
  apply bind_Ok in Hpc. destruct Hpc as (? & _ & Hpc).
  apply bind_Ok in Hpc. destruct Hpc as (? & _ & Hpc).
  apply bind_Ok in Hpc. destruct Hpc as (? & _ & Hpc).
  apply bind_Ok in Hpc. destruct Hpc as (? & _ & Hpc).
  apply bind_Ok in Hpc. destruct Hpc as ([[? ?] ?] & _ & Hpc).
  apply bind_Ok in Hpc. destruct Hpc as (? & _ & Hpc).
  apply bind_Ok in Hpc. destruct Hpc as ([? ?] & _ & Hpc).
  apply bind_Ok in Hpc. destruct Hpc as (? & _ & Hpc).
  apply bind_Ok in Hpc. destruct Hpc as (? & _ & Hpc).
  apply bind_Ok in Hpc. destruct Hpc as (? & _ & Hpc).
  inversion Hpc; subst. reflexivity.
Qed.

(** * The claims *)

(** C1: the table that holds only mode 16 (1920x1080@60Hz, clock 148500 kHz,
    horizontal 1920/2008/2052/2200, vertical 1080/1084/1089/1125, both
    polarities positive) yields exactly one record and prints nothing; the
    record has hfront 88, hsync 44, hback 148, vfront 4, vsync 5, vback 36,
    hpol 1, vpol 1 and ln 1.  The same holds for [parse_mode_string] on the
    entry alone. *)
Theorem round_trip_1080p :
  parse_c_file doc_1080p arrays_to_include = Ok ([mode_1080p], []) /\
  parse_mode_string entry_1080p = Ok (mode_1080p, []) /\
  hfront mode_1080p = 88 /\ hsync mode_1080p = 44 /\ hback mode_1080p = 148 /\
  vfront mode_1080p = 4 /\ vsync mode_1080p = 5 /\ vback mode_1080p = 36 /\
  hpol mode_1080p = 1 /\ vpol mode_1080p = 1 /\ ln mode_1080p = 1.
Proof. vm_compute. repeat split. Qed.

(** C2: for an entry that decodes and passes the assertions before the
    rate, whose clock and totals are integer literals and whose stated
    rate is a float literal, the computed rate is the float quotient of
    [clock * 1000] by [vtotal * htotal], where that quotient exists,
    multiplied by [f2] when the macro carries the interlace flag; [f2] is
    the float of the integer 2.  If it equals the rate of the comment the entry is
    accepted, when it has a record, and nothing is printed; if it differs
    by less than 0.005 times the rate of the comment the entry is accepted
    with one warning; otherwise the entry ends in an [AssertionError],
    whether it has a record or not.  For a progressive mode stated as
    100 Hz, the rates 100.4 Hz and 99.6 Hz (0.4 % off) give a warning, the
    rates 100.6 Hz and 99.4 Hz (0.6 % off) fail, and 100 Hz passes
    silently.  For the interlaced mode 1920x1080i with 2200 x 1125 pixel
    periods: at 74250 kHz, which is 30 frames per second, the entry passes
    silently when the comment states 60 Hz and fails when it states 30 Hz;
    at 148500 kHz, 60 frames per second, it fails under 60 Hz; at
    74176 kHz under 60 Hz it is accepted with a warning. *)
Theorem refresh_rate_check :
  float_of_int 2 = Ok f2 /\
  (forall (s : string) (c : ParsedComment) (k : ParsedMacro) (aspect : Z * Z)
          (clock vt ht : Z) (fa fb q stated fps : float),
     decode s = Ok (c, k, aspect) ->
     check_consistency c k aspect = Ok tt ->
     int (mac_clock k) = Ok clock ->
     int (mac_vtotal k) = Ok vt ->
     int (mac_htotal k) = Ok ht ->
     float_of_int (clock * 1000) = Ok fa ->
     float_of_int (vt * ht) = Ok fb ->
     fdiv fa fb = Ok q ->
     fps = (if mac_interlaced k then fmul q f2 else q) ->
     float_of_str (cmnt_freq c) = Ok stated ->
     (feqb fps stated = true ->
      forall m : VideoMode, build_mode c k = Ok m ->
      parse_mode_string s = Ok (m, [])) /\
     (feqb fps stated = false ->
      fltb (fabs (fsub stated fps)) (fmul f0_005 stated) = true ->
      forall m : VideoMode, build_mode c k = Ok m ->
      parse_mode_string s = Ok (m, [rate_warning c fps])) /\
     (feqb fps stated = false ->
      fltb (fabs (fsub stated fps)) (fmul f0_005 stated) = false ->
      parse_mode_string s = Err AssertionError)) /\
  (rate_ratio 1004 100 100 100 1004 1000 /\
   exists w, parse_mode_string (entry_rate "1004")
             = Ok (mode_rate 1004, [w])) /\
  (rate_ratio 996 100 100 100 996 1000 /\
   exists w, parse_mode_string (entry_rate "996")
             = Ok (mode_rate 996, [w])) /\
  (rate_ratio 1006 100 100 100 1006 1000 /\
   parse_mode_string (entry_rate "1006") = Err AssertionError) /\
  (rate_ratio 994 100 100 100 994 1000 /\
   parse_mode_string (entry_rate "994") = Err AssertionError) /\
  parse_mode_string (entry_rate "1000") = Ok (mode_rate 1000, []) /\
  (rate_ratio 74250 1125 2200 60 1 2 /\
   parse_mode_string (entry_1080i "60" "74250")
   = Ok (mode_1080i 74250, [])) /\
  (rate_ratio 74250 1125 2200 30 1 1 /\
   parse_mode_string (entry_1080i "30" "74250") = Err AssertionError) /\
  (rate_ratio 148500 1125 2200 60 1 1 /\
   parse_mode_string (entry_1080i "60" "148500") = Err AssertionError) /\
  (rate_ratio 74176 1125 2200 60 18544 37125 /\
   parse_mode_string (entry_1080i "60" "74176")
   = Ok (mode_1080i 74176,
         [ {| warn_name := "1920x1080i@60Hz"; warn_freq := "60";
              warn_fps := S754_finite false 8435833483834190 (-47) |} ])).
Proof.
  split; [vm_compute; reflexivity|].
  split.
  - intros s c k aspect clock vt ht fa fb q stated fps
      Hd Hc Hclock Hvt Hht Hfa Hfb Hq Hfps Hst.
    assert (Hcalc : fps_calc k = Ok fps).
    { unfold fps_calc.
      rewrite Hclock; simpl. rewrite Hfa; simpl.
      rewrite Hvt; simpl. rewrite Hht; simpl.
      rewrite Hfb; simpl. rewrite Hq; simpl. rewrite Hfps. reflexivity. }
    assert (Hpms : parse_mode_string s =
                   (out ← check_fps c fps;
                    m ← build_mode c k; Ok (m, out))).
    { unfold parse_mode_string.
      rewrite Hd; simpl. rewrite Hc; simpl. rewrite Hcalc; simpl.
      destruct (check_fps c fps); simpl; [|reflexivity].
      destruct (build_mode c k); reflexivity. }
    rewrite Hpms. unfold check_fps. rewrite Hst. simpl.
    repeat split.
    + intros -> m ->. reflexivity.
    + intros -> -> m ->. reflexivity.
    + intros -> ->. reflexivity.
  - unfold rate_ratio. repeat split; try (vm_compute; reflexivity).
    + eexists. vm_compute. reflexivity.
    + eexists. vm_compute. reflexivity.
Qed.

Lemma refresh_rate_check_witness :
  (exists w,
     parse_mode_string (entry_rate "1004") = Ok (mode_rate 1004, [w])) /\
  parse_mode_string (entry_1080i "60" "74250") = Ok (mode_1080i 74250, []) /\
  parse_mode_string (entry_1080i "30" "74250") = Err AssertionError.
Proof.
  split; [|split].
  - destruct (decode (entry_rate "1004")) as [[[c k] aspect]|] eqn:Hd;
      [|vm_compute in Hd; discriminate Hd].
    exists (rate_warning c
              (S754_finite false 7065021915437466 (-46))).
    apply (proj1 (proj2 refresh_rate_check) (entry_rate "1004") c k aspect
             1004 100 100
             (S754_finite false 8624294330368000 (-33))
             (S754_finite false 5497558138880000 (-39))
             (S754_finite false 7065021915437466 (-46))
             (S754_finite false 7036874417766400 (-46))
             (S754_finite false 7065021915437466 (-46)) Hd);
      vm_compute in Hd; inversion Hd; subst; vm_compute; reflexivity.
  - destruct (decode (entry_1080i "60" "74250")) as [[[c k] aspect]|] eqn:Hd;
      [|vm_compute in Hd; discriminate Hd].
    apply (proj1 (proj2 refresh_rate_check) (entry_1080i "60" "74250")
             c k aspect 74250 1125 2200
             (S754_finite false 4982833152000000 (-26))
             (S754_finite false 5315022028800000 (-31))
             (S754_finite false 8444249301319680 (-48))
             (S754_finite false 8444249301319680 (-47))
             (S754_finite false 8444249301319680 (-47)) Hd);
      vm_compute in Hd; inversion Hd; subst; vm_compute; reflexivity.
  - destruct (decode (entry_1080i "30" "74250")) as [[[c k] aspect]|] eqn:Hd;
      [|vm_compute in Hd; discriminate Hd].
    apply (proj1 (proj2 refresh_rate_check) (entry_1080i "30" "74250")
             c k aspect 74250 1125 2200
             (S754_finite false 4982833152000000 (-26))
             (S754_finite false 5315022028800000 (-31))
             (S754_finite false 8444249301319680 (-48))
             (S754_finite false 8444249301319680 (-48))
             (S754_finite false 8444249301319680 (-47)) Hd);
      vm_compute in Hd; inversion Hd; subst; vm_compute; reflexivity.
Defined.

(** C3: in every accepted record, that is in every record that
    [parse_mode_string] returns and so in every record of a successful
    run of [parse_c_file], each total is the sum of the active part, the
    front porch, the sync width and the back porch. *)
Theorem totals_are_sums (m : VideoMode) :
  accepted m \/
  (exists content arrays modes out,
     parse_c_file content arrays = Ok (modes, out) /\ m ∈ modes) ->
  htotal m = hactive m + hfront m + hsync m + hback m /\
  vtotal m = vactive m + vfront m + vsync m + vback m.
Proof.
  intros H.
  assert (Hacc : accepted m).
  { destruct H as [H|(content & arrays & modes & out & Hrun & Hin)];
      [exact H|].
    apply parse_c_file_accepted in Hrun.
    rewrite Forall_forall in Hrun. exact (Hrun m Hin). }
  destruct Hacc as (s & w & Hs).
  apply parse_mode_string_Ok in Hs.
  destruct Hs as (c & k & aspect & fps & _ & _ & _ & _ & Hb).
  apply build_mode_fields in Hb.
  destruct Hb as (clock & hd & vd & ht & hss & hse & vt & vss & vse & Hm).
  destruct Hm as (_ & _ & _ & _ & _ & _ & _ & _ & _ & ->). simpl. lia.
Qed.

Lemma totals_are_sums_witness :
  htotal mode_1080p
    = hactive mode_1080p + hfront mode_1080p + hsync mode_1080p
      + hback mode_1080p /\
  vtotal mode_1080p
    = vactive mode_1080p + vfront mode_1080p + vsync mode_1080p
      + vback mode_1080p.
Proof.
  apply (totals_are_sums mode_1080p). right.
  exists doc_1080p, arrays_to_include, [mode_1080p], []. split.
  - vm_compute. reflexivity.
  - apply list_elem_of_here.
Defined.

(** C4, as stated, fails: this table yields two records with identifier
    16. *)
Lemma duplicate_vic_accepted :
  parse_c_file doc_twice arrays_to_include
    = Ok ([mode_1080p; mode_1080p], []) /\
  ~ NoDup (vic <$> [mode_1080p; mode_1080p]).
Proof.
  split; [vm_compute; reflexivity|].
  intros H. apply NoDup_cons in H. destruct H as [H _]. apply H.
  apply list_elem_of_here.
Qed.

(** C4, amended: the identifiers are not compared with each other.  A
    successful run returns one record for each entry block that the scan
    flushes, in the order of the source, and the identifier of each record
    is the number in the comment of its block; so the identifiers of the
    records have no duplicates exactly when no number occurs in the
    comments of two of the scanned blocks. *)
Theorem vic_follows_comments (file_content : string) (arrays : list string)
    (modes : list VideoMode) (out : list warning) :
  parse_c_file file_content arrays = Ok (modes, out) ->
  exists blks,
    entry_blocks file_content arrays = Ok blks /\
    Forall2 record_of blks modes /\
    Forall2 (fun b id => block_id b = Ok id) blks (vic <$> modes) /\
    (NoDup (vic <$> modes) <->
     forall i j b b' id,
       blks !! i = Some b -> blks !! j = Some b' ->
       block_id b = Ok id -> block_id b' = Ok id -> i = j).
Proof.
  unfold parse_c_file, entry_blocks. intros H.
  apply bind_Ok in H. destruct H as (st & Hrun & H). inversion H; subst.
  destruct (run_blocks_agree arrays _ init st
              {| open_array := None; pending := Unbound; blocks := [] |} Hrun)
    as (bst & Hb & _ & _ & Hrec).
  { repeat split. constructor. }
  exists (blocks bst). rewrite Hb. split; [reflexivity|].
  split; [exact Hrec|].
  assert (Hid : Forall2 (fun b id => block_id b = Ok id)
                  (blocks bst) (vic <$> video_modes st)).
  { apply Forall2_fmap_r.
    eapply Forall2_impl; [exact Hrec|].
    intros b m. apply record_of_block_id. }
  split; [exact Hid|].
  rewrite NoDup_alt. split.
  - intros Hnd i j b b' id Hi Hj Hbi Hbj.
    destruct (Forall2_lookup_l _ _ _ _ _ Hid Hi) as (x & Hx & Ex).
    destruct (Forall2_lookup_l _ _ _ _ _ Hid Hj) as (y & Hy & Ey).
    rewrite Hbi in Ex. rewrite Hbj in Ey.
    inversion Ex; inversion Ey; subst.
    exact (Hnd i j _ Hx Hy).
  - intros Hnd i j id Hi Hj.
    destruct (Forall2_lookup_r _ _ _ _ _ Hid Hi) as (b & Hb1 & Eb).
    destruct (Forall2_lookup_r _ _ _ _ _ Hid Hj) as (b' & Hb2 & Eb').
    exact (Hnd i j b b' id Hb1 Hb2 Eb Eb').
Qed.

Lemma vic_follows_comments_witness :
  exists blks,
    entry_blocks doc_twice arrays_to_include = Ok blks /\
    Forall2 (fun b id => block_id b = Ok id) blks
      (vic <$> [mode_1080p; mode_1080p]).
Proof.
  destruct (vic_follows_comments doc_twice arrays_to_include
              [mode_1080p; mode_1080p] [])
    as (blks & Hb & _ & Hid & _).
  - vm_compute. reflexivity.
  - exists blks. split; assumption.
Defined.

(** C5, as stated, fails: this entry has a negative front porch and is
    accepted. *)
Lemma negative_front_porch_accepted :
  exists m, parse_mode_string entry_early_sync = Ok (m, []) /\ hfront m = -20.
Proof. eexists. split; vm_compute; reflexivity. Qed.

(** C5, amended: the record of an accepted entry holds the differences
    hblank = h-total - h-display, hfront = h-sync-start - h-display,
    hsync = h-sync-end - h-sync-start, hback = h-total - h-sync-end of the
    macro parameters, and the same for the vertical axis.  Their signs are
    not checked: the porches and sync widths of an axis are all
    non-negative exactly when its four boundaries are in order. *)
Theorem derived_values (s : string) (m : VideoMode) (out : list warning) :
  parse_mode_string s = Ok (m, out) ->
  exists c k aspect hss hse vss vse,
    decode s = Ok (c, k, aspect) /\
    int (mac_hdisplay k) = Ok (hactive m) /\
    int (mac_hsync_start k) = Ok hss /\
    int (mac_hsync_end k) = Ok hse /\
    int (mac_htotal k) = Ok (htotal m) /\
    int (mac_vdisplay k) = Ok (vactive m) /\
    int (mac_vsync_start k) = Ok vss /\
    int (mac_vsync_end k) = Ok vse /\
    int (mac_vtotal k) = Ok (vtotal m) /\
    hblank m = htotal m - hactive m /\ hfront m = hss - hactive m /\
    hsync m = hse - hss /\ hback m = htotal m - hse /\
    vblank m = vtotal m - vactive m /\ vfront m = vss - vactive m /\
    vsync m = vse - vss /\ vback m = vtotal m - vse /\
    (0 <= hfront m /\ 0 <= hsync m /\ 0 <= hback m <->
     hactive m <= hss /\ hss <= hse /\ hse <= htotal m) /\
    (0 <= vfront m /\ 0 <= vsync m /\ 0 <= vback m <->
     vactive m <= vss /\ vss <= vse /\ vse <= vtotal m).
Proof.
  intros Hs. apply parse_mode_string_Ok in Hs.
  destruct Hs as (c & k & aspect & fps & Hd & _ & _ & _ & Hb).
  apply build_mode_fields in Hb.
  destruct Hb as (clock & hd & vd & ht & hss & hse & vt & vss & vse & Hb).
  destruct Hb as (_ & Hhd & Hvd & Hht & Hhss & Hhse & Hvt & Hvss & Hvse & ->).
  exists c, k, aspect, hss, hse, vss, vse. simpl.
  repeat (split; [first [assumption | reflexivity]|]).
  split; lia.
Qed.

Lemma derived_values_witness :
  exists hss hse vss vse,
    hfront mode_1080p = hss - hactive mode_1080p /\
    hsync mode_1080p = hse - hss /\
    hback mode_1080p = htotal mode_1080p - hse /\
    vfront mode_1080p = vss - vactive mode_1080p /\
    vsync mode_1080p = vse - vss /\
    vback mode_1080p = vtotal mode_1080p - vse.
Proof.
  destruct (derived_values entry_1080p mode_1080p [])
    as (c & k & aspect & hss & hse & vss & vse & H).
  - vm_compute. reflexivity.
  - exists hss, hse, vss, vse. tauto.
Defined.

(** C6, as stated, fails: the comment and the macro name of this entry
    encode interlace, its interlace flag is not set, and the entry is
    accepted, as a progressive mode. *)
Lemma interlace_converse_unchecked :
  exists c k aspect m,
    decode entry_1080i_unflagged = Ok (c, k, aspect) /\
    cmnt_interlaced c = true /\ mac_name_interlaced k = true /\
    mac_interlaced k = false /\
    parse_mode_string entry_1080i_unflagged = Ok (m, []) /\
    interlaced m = false.
Proof.
  do 4 eexists. split; [vm_compute; reflexivity|].
  repeat split; vm_compute; reflexivity.
Qed.

(** C6, amended: the check runs from the flag to the texts only.  An entry
    that decodes with the interlace flag set is accepted only if both the
    macro name and the comment encode interlace, and ends in an
    [AssertionError] otherwise; the interlace field of the record is the
    flag.  Nothing is required of an entry whose flag is not set. *)
Theorem interlace_flag_checked (s : string) (c : ParsedComment)
    (k : ParsedMacro) (aspect : Z * Z) :
  decode s = Ok (c, k, aspect) ->
  mac_interlaced k = bool_decide ("DRM_MODE_FLAG_INTERLACE" ∈ mac_flags k) /\
  (forall m out, parse_mode_string s = Ok (m, out) ->
     interlaced m = mac_interlaced k /\
     (mac_interlaced k = true ->
      mac_name_interlaced k = true /\ cmnt_interlaced c = true)) /\
  (mac_interlaced k = true ->
   mac_name_interlaced k = false \/ cmnt_interlaced c = false ->
   parse_mode_string s = Err AssertionError).
Proof.
  intros Hd. split; [|split].
  - destruct (decode_macro_flags _ _ _ _ Hd) as (Hi & _). exact Hi.
  - intros m out Hs. apply parse_mode_string_Ok in Hs.
    destruct Hs as (c' & k' & aspect' & fps & Hd' & Hc & _ & _ & Hb).
    rewrite Hd in Hd'. inversion Hd'; subst c' k' aspect'.
    destruct (check_consistency_Ok _ _ _ Hc) as (_ & _ & Hi).
    apply build_mode_fields in Hb.
    destruct Hb as (? & ? & ? & ? & ? & ? & ? & ? & ? & Hm).
    destruct Hm as (_ & _ & _ & _ & _ & _ & _ & _ & _ & ->). simpl.
    split; [reflexivity | exact Hi].
  - intros Hk Hno. unfold parse_mode_string. rewrite Hd. simpl.
    rewrite (check_consistency_interlace_Err c k aspect Hk Hno). reflexivity.
Qed.

Lemma interlace_flag_checked_witness :
  parse_mode_string entry_1080i_unnamed = Err AssertionError.
Proof.
  refine (proj2 (proj2
    (interlace_flag_checked entry_1080i_unnamed _ _ _ _)) _ _).
  - vm_compute. reflexivity.
  - vm_compute. reflexivity.
  - left. vm_compute. reflexivity.
Defined.

(** C7, as stated, fails: at the end of this text the array is open and a
    partial entry is pending, and [parse_c_file] returns the record
    accepted before. *)
Lemma truncated_input_returns_records :
  exists st,
    run arrays_to_include (split nl doc_truncated) init = Ok st /\
    current_array st = Some "edid_cea_modes_1" /\
    mode_string st = PyStr "/* 17 - 720x576@50Hz 4:3 */{ DRM_MODE(" /\
    parse_c_file doc_truncated arrays_to_include = Ok ([mode_1080p], []).
Proof. eexists. split; [|repeat split]; vm_compute; reflexivity. Qed.

(** C7, amended: the end of the input is not an error.  When the loop ends
    with an array open and a partial entry pending, [parse_c_file] returns
    the records accepted so far, and the pending text is dropped. *)
Theorem eof_returns_accepted (file_content : string) (arrays : list string)
    (st : scan) (array_name partial : string) :
  run arrays (split nl file_content) init = Ok st ->
  current_array st = Some array_name ->
  mode_string st = PyStr partial ->
  parse_c_file file_content arrays = Ok (video_modes st, printed st) /\
  Forall accepted (video_modes st).
Proof.
  intros Hrun _ _. unfold parse_c_file.
  rewrite (bind_Ok_intro _ _ _ Hrun). split; [reflexivity|].
  apply (run_accepted _ _ _ _ Hrun). constructor.
Qed.

Lemma eof_returns_accepted_witness :
  parse_c_file doc_truncated arrays_to_include
    = Ok (video_modes scan_truncated, printed scan_truncated) /\
  Forall accepted (video_modes scan_truncated).
Proof.
  apply (eof_returns_accepted doc_truncated arrays_to_include scan_truncated
           "edid_cea_modes_1" "/* 17 - 720x576@50Hz 4:3 */{ DRM_MODE(").
  - vm_compute. reflexivity.
  - reflexivity.
  - reflexivity.
Defined.

(** C8: an entry that decodes is accepted only if exactly one of NHSYNC and
    PHSYNC and exactly one of NVSYNC and PVSYNC are among its flags, and
    then the polarities of the record are those flags (0 for the negative
    flag, 1 for the positive one); an entry that lacks a polarity flag of
    an axis, or carries both, ends in an [AssertionError]. *)
Theorem polarity_flags (s : string) (c : ParsedComment) (k : ParsedMacro)
    (aspect : Z * Z) :
  decode s = Ok (c, k, aspect) ->
  (forall m out, parse_mode_string s = Ok (m, out) ->
     exactly_one "DRM_MODE_FLAG_NHSYNC" "DRM_MODE_FLAG_PHSYNC" (mac_flags k) /\
     exactly_one "DRM_MODE_FLAG_NVSYNC" "DRM_MODE_FLAG_PVSYNC" (mac_flags k) /\
     hpol m = (if bool_decide ("DRM_MODE_FLAG_NHSYNC" ∈ mac_flags k)
               then 0 else 1) /\
     vpol m = (if bool_decide ("DRM_MODE_FLAG_NVSYNC" ∈ mac_flags k)
               then 0 else 1)) /\
  (~ (exactly_one "DRM_MODE_FLAG_NHSYNC" "DRM_MODE_FLAG_PHSYNC" (mac_flags k) /\
      exactly_one "DRM_MODE_FLAG_NVSYNC" "DRM_MODE_FLAG_PVSYNC" (mac_flags k)) ->
   parse_mode_string s = Err AssertionError).
Proof.
  intros Hd. split.
  - intros m out Hs. apply parse_mode_string_Ok in Hs.
    destruct Hs as (c' & k' & aspect' & fps & Hd' & Hc & _ & _ & Hb).
    rewrite Hd in Hd'. inversion Hd'; subst c' k' aspect'.
    destruct (check_consistency_Ok _ _ _ Hc) as (Hh & Hv & _).
    destruct (decode_macro_flags _ _ _ _ Hd) as (_ & Hhn & Hvn).
    apply build_mode_fields in Hb.
    destruct Hb as (? & ? & ? & ? & ? & ? & ? & ? & ? & Hm).
    destruct Hm as (_ & _ & _ & _ & _ & _ & _ & _ & _ & ->). simpl.
    rewrite <- Hhn, <- Hvn. auto.
  - intros Hno. unfold parse_mode_string. rewrite Hd. simpl.
    rewrite (check_consistency_polarity_Err c k aspect Hno). reflexivity.
Qed.

Lemma polarity_flags_witness :
  parse_mode_string entry_no_vpol = Err AssertionError /\
  parse_mode_string entry_both_vpol = Err AssertionError.
Proof.
  split.
  - refine (proj2 (polarity_flags entry_no_vpol _ _ _ _) _).
    + vm_compute. reflexivity.
    + intros [_ Hv]. apply (bool_decide_pack _) in Hv.
      vm_compute in Hv. exact Hv.
  - refine (proj2 (polarity_flags entry_both_vpol _ _ _ _) _).
    + vm_compute. reflexivity.
    + intros [_ Hv]. apply (bool_decide_pack _) in Hv.
      vm_compute in Hv. exact Hv.
Defined.

(** C9, as stated, fails: for this entry the balanced parameter list runs
    to the parenthesis that closes [DRM_MODE(], while line 68 stops at the
    first closing parenthesis, inside the list; the entry is then rejected
    for its number of parameters. *)
Lemma nested_parentheses_cut :
  balanced_parameter_list entry_nested
    = Some (dq ++ "1920x1080" ++ dq ++ ", DRM_MODE_TYPE_DRIVER, (148500), " ++
            "1920, 2008, 2052, 2200, 0, 1080, 1084, 1089, 1125, 0, " ++
            "DRM_MODE_FLAG_PHSYNC | DRM_MODE_FLAG_PVSYNC") /\
  split_macro entry_nested
    = Ok (dq ++ "1920x1080" ++ dq ++ ", DRM_MODE_TYPE_DRIVER, (148500") /\
  parse_mode_string entry_nested = Err ValueError.
Proof. repeat split; vm_compute; reflexivity. Qed.

(** C9, amended: the parameter list is cut without counting parentheses.
    Line 68 takes the text after the first comment-close delimiter, up to
    the next such delimiter if there is one; in it, the text after the
    first opening parenthesis; of that, the text before the first closing
    parenthesis, or all of it if there is none; and strips white space
    from both ends.  A missing delimiter or opening parenthesis is an
    [IndexError]. *)
Theorem split_macro_first_close (block : string) :
  split_macro block =
  match partition "*/" block with
  | None => Err IndexError
  | Some (_, after_comment) =>
      match partition "(" (before "*/" after_comment) with
      | None => Err IndexError
      | Some (_, inner) => Ok (strip (before ")" inner))
      end
  end.
Proof.
  unfold split_macro.
  rewrite (split_second "*/" ltac:(discriminate) block).
  destruct (partition "*/" block) as [[a after_comment]|]; [|reflexivity].
  rewrite (bind_Ok_intro _ _ _ eq_refl), splitn_S.
  destruct (partition "(" (before "*/" after_comment)) as [[x inner]|];
    [|reflexivity].
  rewrite (bind_Ok_intro _ _ inner eq_refl).
  pose proof (rsplit_char_head ")" inner) as Hclose. unfold char in Hclose.
  rewrite Hclose. reflexivity.
Qed.

(** C10: [ln4] and [ln7] have no element in common, and [get_ln] returns 4
    on the elements of [ln4], 7 on those of [ln7] and 1 elsewhere; its
    value always lies between 1 and 7. *)
Theorem get_ln_total (vic : Z) :
  ln4 ## ln7 /\
  ((vic ∈ ln4 /\ get_ln vic = 4) \/
   (vic ∈ ln7 /\ get_ln vic = 7) \/
   ((vic ∉ ln4) /\ (vic ∉ ln7) /\ get_ln vic = 1)) /\
  1 <= get_ln vic <= 7.
Proof.
  split.
  { assert (H : Forall (fun x => x ∉ ln7) ln4).
    { apply (bool_decide_unpack _). vm_compute. exact I. }
    rewrite Forall_forall in H. intros x H4 H7. exact (H x H4 H7). }
  unfold get_ln.
  destruct (bool_decide_reflect (vic ∈ ln4)) as [H4|H4].
  { split; [left; auto | lia]. }
  destruct (bool_decide_reflect (vic ∈ ln7)) as [H7|H7].
  { split; [right; left; auto | lia]. }
  split; [right; right; auto | lia].
Qed.

(** * Further properties of [get_timings.py] *)

(** ** What the assertions of an accepted entry establish *)

(** All the facts that lines 118 to 136 assert. *)
Lemma check_consistency_inv (c : ParsedComment) (k : ParsedMacro)
    (aspect : Z * Z) :
  check_consistency c k aspect = Ok tt ->
  (list_to_set (mac_flags k) : gset string) ∖ flags_avail = ∅ /\
  (mac_dbl_clk k = true ->
   cmnt_dbl_clocked c = true /\ cmnt_dbl_hres c = Some (2 * cmnt_hres c)) /\
  int (mac_hdisplay k) = Ok (cmnt_hres c) /\
  mac_name_hres k = cmnt_hres c /\
  int (mac_vdisplay k) = Ok (cmnt_vres c) /\
  mac_name_vres k = cmnt_vres c /\
  aspect = (cmnt_aspect_nom c, cmnt_aspect_denom c) /\
  mac_type k = "DRM_MODE_TYPE_DRIVER" /\
  int (mac_hskew k) = Ok 0 /\
  int (mac_vscan k) = Ok 0.
Proof.
  unfold check_consistency. intros H.
  apply bind_Ok in H. destruct H as (? & Hf & H). apply assert_Ok in Hf.
  apply bind_Ok in H. destruct H as (? & _ & H).
  apply bind_Ok in H. destruct H as (? & _ & H).
  apply bind_Ok in H. destruct H as (? & _ & H).
  apply bind_Ok in H. destruct H as (? & Hdbl & H).
  apply bind_Ok in H. destruct H as (hd & Hhd & H).
  apply bind_Ok in H. destruct H as (? & Hhd' & H). apply assert_Ok in Hhd'.
  apply bind_Ok in H. destruct H as (? & Hnh & H). apply assert_Ok in Hnh.
  apply bind_Ok in H. destruct H as (vd & Hvd & H).
  apply bind_Ok in H. destruct H as (? & Hvd' & H). apply assert_Ok in Hvd'.
  apply bind_Ok in H. destruct H as (? & Hnv & H). apply assert_Ok in Hnv.
  apply bind_Ok in H. destruct H as (? & Han & H). apply assert_Ok in Han.
  apply bind_Ok in H. destruct H as (? & Had & H). apply assert_Ok in Had.
  apply bind_Ok in H. destruct H as (? & Hty & H). apply assert_Ok in Hty.
  apply bind_Ok in H. destruct H as (hs & Hhs & H).
  apply bind_Ok in H. destruct H as (? & Hhs' & H). apply assert_Ok in Hhs'.
  apply bind_Ok in H. destruct H as (vs & Hvs & H). apply assert_Ok in H.
  apply bool_decide_eq_true in Hf.
  apply Z.eqb_eq in Hhd', Hnh, Hvd', Hnv, Han, Had, Hhs', H.
  apply String.eqb_eq in Hty. subst hd vd hs vs.
  repeat split; try assumption.
  - destruct (mac_dbl_clk k); [|discriminate].
    apply bind_Ok in Hdbl. destruct Hdbl as (? & Hd1 & _).
    apply assert_Ok in Hd1. exact Hd1.
  - destruct (mac_dbl_clk k); [|discriminate].
    apply bind_Ok in Hdbl. destruct Hdbl as (? & _ & Hd2).
    apply assert_Ok in Hd2. apply bool_decide_eq_true in Hd2.
    symmetry. exact Hd2.
  - destruct aspect as [n d]. simpl in Han, Had. congruence.
Qed.

(** The steps of an accepted entry, with the facts of its assertions. *)
Lemma accepted_entry (s : string) (m : VideoMode) (out : list warning) :
  parse_mode_string s = Ok (m, out) ->
  exists c k aspect,
    decode s = Ok (c, k, aspect) /\
    check_consistency c k aspect = Ok tt /\
    build_mode c k = Ok m.
Proof.
  intros Hs. apply parse_mode_string_Ok in Hs.
  destruct Hs as (c & k & aspect & fps & Hd & Hc & _ & _ & Hb).
  exists c, k, aspect. auto.
Qed.

(** An entry is accepted only if each of its flags is one of the six
    known flags; an entry that decodes with any other flag, the empty
    text between two bars included, ends in an [AssertionError]. *)
Theorem flags_are_known (s : string) (c : ParsedComment) (k : ParsedMacro)
    (aspect : Z * Z) :
  decode s = Ok (c, k, aspect) ->
  (forall m out, parse_mode_string s = Ok (m, out) ->
     forall f, f ∈ mac_flags k -> f ∈ flags_avail) /\
  (forall f, f ∈ mac_flags k -> ~ (f ∈ flags_avail) ->
     parse_mode_string s = Err AssertionError).
Proof.
  intros Hd. split.
  - intros m out Hs f Hf.
    destruct (accepted_entry _ _ _ Hs) as (c' & k' & a' & Hd' & Hc & _).
    rewrite Hd in Hd'. inversion Hd'; subst c' k' a'.
    destruct (check_consistency_inv _ _ _ Hc) as (Hflags & _).
    destruct (decide (f ∈ flags_avail)) as [Hin|Hnin]; [exact Hin|].
    exfalso.
    assert (Hx : f ∈ (list_to_set (mac_flags k) : gset string)
                     ∖ flags_avail).
    { apply elem_of_difference. split; [|exact Hnin].
      apply elem_of_list_to_set. exact Hf. }
    rewrite Hflags in Hx. exact (not_elem_of_empty f Hx).
  - intros f Hf Hnin. unfold parse_mode_string. rewrite Hd. simpl.
    unfold check_consistency.
    rewrite (assert_bind _ _ (Err AssertionError));
      [reflexivity | reflexivity |].
    intros Hb. apply bool_decide_eq_true in Hb. exfalso.
    assert (Hx : f ∈ (list_to_set (mac_flags k) : gset string)
                     ∖ flags_avail).
    { apply elem_of_difference. split; [|exact Hnin].
      apply elem_of_list_to_set. exact Hf. }
    rewrite Hb in Hx. exact (not_elem_of_empty f Hx).
Qed.

Lemma flags_are_known_witness :
  parse_mode_string entry_unknown_flag = Err AssertionError.
Proof.
  refine (proj2 (flags_are_known entry_unknown_flag _ _ _ _)
            "DRM_MODE_FLAG_CSYNC" _ _).
  - vm_compute. reflexivity.
  - apply (bool_decide_unpack _). vm_compute. exact I.
  - intros H. apply (bool_decide_pack _) in H. vm_compute in H. exact H.
Defined.

(** In an accepted record the active width is the width in the comment
    and the width in the macro name, and the active height is the height
    in the comment and the height in the macro name. *)
Theorem resolutions_agree (s : string) (m : VideoMode) (out : list warning) :
  parse_mode_string s = Ok (m, out) ->
  exists c k aspect,
    decode s = Ok (c, k, aspect) /\
    hactive m = cmnt_hres c /\ hactive m = mac_name_hres k /\
    vactive m = cmnt_vres c /\ vactive m = mac_name_vres k.
Proof.
  intros Hs.
  destruct (accepted_entry _ _ _ Hs) as (c & k & aspect & Hd & Hc & Hb).
  destruct (check_consistency_inv _ _ _ Hc)
    as (_ & _ & Hhd & Hnh & Hvd & Hnv & _).
  apply build_mode_fields in Hb.
  destruct Hb as (? & hd & vd & ? & ? & ? & ? & ? & ? & Hb).
  destruct Hb as (_ & Hhd' & Hvd' & _ & _ & _ & _ & _ & _ & ->).
  rewrite Hhd in Hhd'. rewrite Hvd in Hvd'.
  inversion Hhd'; inversion Hvd'; subst.
  exists c, k, aspect. simpl. auto.
Qed.

Lemma resolutions_agree_witness :
  exists c k aspect,
    decode entry_1080p = Ok (c, k, aspect) /\
    hactive mode_1080p = cmnt_hres c /\ hactive mode_1080p = mac_name_hres k /\
    vactive mode_1080p = cmnt_vres c /\ vactive mode_1080p = mac_name_vres k.
Proof.
  apply (resolutions_agree entry_1080p mode_1080p []).
  vm_compute. reflexivity.
Defined.

(** An entry is accepted only if the two numbers at the end of its aspect
    ratio token are the aspect ratio of its comment, its type is
    DRM_MODE_TYPE_DRIVER, and its hskew and vscan are zero. *)
Theorem aspect_type_skew (s : string) (m : VideoMode) (out : list warning) :
  parse_mode_string s = Ok (m, out) ->
  exists c k aspect,
    decode s = Ok (c, k, aspect) /\
    aspect = (cmnt_aspect_nom c, cmnt_aspect_denom c) /\
    mac_type k = "DRM_MODE_TYPE_DRIVER" /\
    int (mac_hskew k) = Ok 0 /\ int (mac_vscan k) = Ok 0.
Proof.
  intros Hs.
  destruct (accepted_entry _ _ _ Hs) as (c & k & aspect & Hd & Hc & _).
  destruct (check_consistency_inv _ _ _ Hc)
    as (_ & _ & _ & _ & _ & _ & Ha & Hty & Hhs & Hvs).
  exists c, k, aspect. auto.
Qed.

Lemma aspect_type_skew_witness :
  exists c k aspect,
    decode entry_1080p = Ok (c, k, aspect) /\
    aspect = (cmnt_aspect_nom c, cmnt_aspect_denom c) /\
    mac_type k = "DRM_MODE_TYPE_DRIVER" /\
    int (mac_hskew k) = Ok 0 /\ int (mac_vscan k) = Ok 0.
Proof.
  apply (aspect_type_skew entry_1080p mode_1080p []).
  vm_compute. reflexivity.
Defined.

(** A record is double clocked exactly when its entry has the flag
    DRM_MODE_FLAG_DBLCLK, and then the comment gives a doubled width in
    parentheses that is twice the active width. *)
Theorem double_clock_doubles (s : string) (m : VideoMode)
    (out : list warning) :
  parse_mode_string s = Ok (m, out) ->
  exists c k aspect,
    decode s = Ok (c, k, aspect) /\
    double_clocked m = bool_decide ("DRM_MODE_FLAG_DBLCLK" ∈ mac_flags k) /\
    (double_clocked m = true ->
     cmnt_dbl_clocked c = true /\ cmnt_dbl_hres c = Some (2 * hactive m)).
Proof.
  intros Hs.
  destruct (accepted_entry _ _ _ Hs) as (c & k & aspect & Hd & Hc & Hb).
  destruct (check_consistency_inv _ _ _ Hc) as (_ & Hdbl & Hhd & _).
  apply build_mode_fields in Hb.
  destruct Hb as (? & hd & ? & ? & ? & ? & ? & ? & ? & Hb).
  destruct Hb as (_ & Hhd' & _ & _ & _ & _ & _ & _ & _ & ->).
  rewrite Hhd in Hhd'. inversion Hhd'; subst.
  exists c, k, aspect. simpl. split; [exact Hd|]. split; [|exact Hdbl].
  unfold decode in Hd. inv_bind Hd. inversion Hd; subst.
  match goal with
  | Hm : parse_macro _ = Ok k |- _ =>
      destruct (parse_macro_flags _ _ Hm) as (Hk & _)
  end. exact Hk.
Qed.

Lemma double_clock_doubles_witness :
  exists m out c k aspect,
    parse_mode_string entry_480i = Ok (m, out) /\
    decode entry_480i = Ok (c, k, aspect) /\
    double_clocked m = true /\
    cmnt_dbl_hres c = Some (2 * hactive m).
Proof.
  destruct (parse_mode_string entry_480i) as [[m out]|] eqn:Hs;
    [|vm_compute in Hs; discriminate Hs].
  destruct (double_clock_doubles entry_480i m out Hs)
    as (c & k & aspect & Hd & Hflag & Hdbl).
  assert (Hm : double_clocked m = true).
  { vm_compute in Hs. inversion Hs; subst. reflexivity. }
  exists m, out, c, k, aspect.
  repeat split; [exact Hd | exact Hm | exact (proj2 (Hdbl Hm))].
Defined.

(** In an accepted record the blanking interval of each axis is the
    total minus the active part, and it is the sum of the front porch,
    the sync width and the back porch. *)
Theorem blank_is_sum (s : string) (m : VideoMode) (out : list warning) :
  parse_mode_string s = Ok (m, out) ->
  hblank m = htotal m - hactive m /\
  hblank m = hfront m + hsync m + hback m /\
  vblank m = vtotal m - vactive m /\
  vblank m = vfront m + vsync m + vback m.
Proof.
  intros Hs.
  destruct (accepted_entry _ _ _ Hs) as (c & k & aspect & _ & _ & Hb).
  apply build_mode_fields in Hb.
  destruct Hb as (? & ? & ? & ? & ? & ? & ? & ? & ? & Hb).
  destruct Hb as (_ & _ & _ & _ & _ & _ & _ & _ & _ & ->). simpl. lia.
Qed.

Lemma blank_is_sum_witness :
  hblank mode_1080p = htotal mode_1080p - hactive mode_1080p /\
  hblank mode_1080p = hfront mode_1080p + hsync mode_1080p + hback mode_1080p /\
  vblank mode_1080p = vtotal mode_1080p - vactive mode_1080p /\
  vblank mode_1080p = vfront mode_1080p + vsync mode_1080p + vback mode_1080p.
Proof.
  apply (blank_is_sum entry_1080p mode_1080p []). vm_compute. reflexivity.
Defined.

(** Line 137 converts the clock and the two totals of the macro before it
    divides.  An entry that passes the assertions before the rate, whose
    clock is an integer literal with [clock * 1000] in the range of a
    float, and whose v-total and h-total are integer literals of which
    one is zero, ends in a [ZeroDivisionError]: the totals are not
    compared with zero before the division by their product. *)
Theorem zero_total_divides (s : string) (c : ParsedComment) (k : ParsedMacro)
    (aspect : Z * Z) (clock vt ht : Z) (fa : float) :
  decode s = Ok (c, k, aspect) ->
  check_consistency c k aspect = Ok tt ->
  int (mac_clock k) = Ok clock ->
  float_of_int (clock * 1000) = Ok fa ->
  int (mac_vtotal k) = Ok vt ->
  int (mac_htotal k) = Ok ht ->
  vt = 0 \/ ht = 0 ->
  parse_mode_string s = Err ZeroDivisionError.
Proof.
  intros Hd Hc Hclock Hfa Hvt Hht Hz.
  unfold parse_mode_string. rewrite Hd; simpl. rewrite Hc; simpl.
  unfold fps_calc. rewrite Hclock; simpl. rewrite Hfa; simpl.
  rewrite Hvt; simpl. rewrite Hht; simpl.
  replace (vt * ht) with 0 by (destruct Hz; subst; lia).
  reflexivity.
Qed.

Lemma zero_total_divides_witness :
  parse_mode_string entry_zero_total = Err ZeroDivisionError.
Proof.
  refine (zero_total_divides entry_zero_total _ _ _ 1000 100 0 _ _ _ _ _ _ _ _);
    [vm_compute; reflexivity .. | right; reflexivity].
Defined.

(** ** The three parts of an entry *)

Lemma contains_partition (sep s : string) :
  contains sep s = false -> partition sep s = None.
Proof.
  unfold contains. destruct (partition sep s); [discriminate | reflexivity].
Qed.

Lemma prefix_drop_parts (p s : string) :
  String.prefix p s = true -> s = p ++ drop (String.length p) s.
Proof.
  revert s. induction p as [|a p IH]; intros s H; [reflexivity|].
  destruct s as [|b s]; simpl in H; [discriminate|].
  destruct (ascii_dec a b) as [->|]; [|discriminate].
  rewrite str_app_cons. simpl drop. f_equal. exact (IH s H).
Qed.

Lemma partition_parts (sep s a r : string) :
  partition sep s = Some (a, r) -> s = a ++ sep ++ r.
Proof.
  revert a r. induction s as [|c s IH]; intros a r H; rewrite partition_eq in H.
  - destruct (String.prefix sep "") eqn:Hp; [|discriminate].
    inversion H; subst. exact (prefix_drop_parts _ _ Hp).
  - destruct (String.prefix sep (String c s)) eqn:Hp.
    + inversion H; subst. exact (prefix_drop_parts _ _ Hp).
    + destruct (partition sep s) as [[a' r']|] eqn:Hs; [|discriminate].
      inversion H; subst. rewrite (IH _ _ eq_refl) at 1.
      rewrite str_app_cons. reflexivity.
Qed.

Lemma contains_char_cons (ch c : ascii) (s : string) :
  contains (char ch) (String c s) = Ascii.eqb ch c || contains (char ch) s.
Proof.
  unfold contains. rewrite partition_char_cons.
  destruct (Ascii.eqb ch c); [reflexivity|].
  destruct (partition (char ch) s) as [[a r]|]; reflexivity.
Qed.

Lemma contains_char_app (ch : ascii) (s t : string) :
  contains (char ch) (s ++ t) = contains (char ch) s || contains (char ch) t.
Proof.
  induction s as [|c s IH]; [reflexivity|].
  rewrite str_app_cons, !contains_char_cons, IH. apply orb_assoc.
Qed.

(** A text without [ch] has no [ch] after or before a separator. *)
Lemma contains_char_partition (ch : ascii) (sep s a r : string) :
  contains (char ch) s = false ->
  partition sep s = Some (a, r) ->
  contains (char ch) a = false /\ contains (char ch) r = false.
Proof.
  intros Hs Hp. apply partition_parts in Hp. subst s.
  rewrite !contains_char_app in Hs.
  apply orb_false_iff in Hs. destruct Hs as [Ha Hs].
  apply orb_false_iff in Hs. destruct Hs as [_ Hr]. auto.
Qed.

Lemma contains_char_before (ch : ascii) (sep s : string) :
  contains (char ch) s = false -> contains (char ch) (before sep s) = false.
Proof.
  intros Hs. unfold before.
  destruct (partition sep s) as [[a r]|] eqn:Hp; [|exact Hs].
  exact (proj1 (contains_char_partition _ _ _ _ _ Hs Hp)).
Qed.

(** Lines 67 to 69 raise nothing but an [IndexError]. *)
Lemma split_comment_cases (s : string) :
  (exists x, split_comment s = Ok x) \/ split_comment s = Err IndexError.
Proof.
  unfold split_comment.
  rewrite (split_second "/*" ltac:(discriminate) s).
  destruct (partition "/*" s) as [[a r]|]; [|right; reflexivity].
  rewrite (bind_Ok_intro _ _ _ eq_refl).
  rewrite (split_head "*/" ltac:(discriminate)).
  left. eexists. reflexivity.
Qed.

Lemma split_macro_cases (s : string) :
  (exists x, split_macro s = Ok x) \/ split_macro s = Err IndexError.
Proof.
  unfold split_macro.
  rewrite (split_second "*/" ltac:(discriminate) s).
  destruct (partition "*/" s) as [[a r]|]; [|right; reflexivity].
  rewrite (bind_Ok_intro _ _ _ eq_refl), splitn_S.
  destruct (partition "(" (before "*/" r)) as [[x inner]|];
    [|right; reflexivity].
  rewrite (bind_Ok_intro _ _ inner eq_refl).
  pose proof (rsplit_char_head ")" inner) as Hclose. unfold char in Hclose.
  rewrite Hclose. left. eexists. reflexivity.
Qed.

Lemma split_macro_no_open (s : string) :
  contains "(" s = false -> split_macro s = Err IndexError.
Proof.
  intros Hs. unfold split_macro.
  rewrite (split_second "*/" ltac:(discriminate) s).
  destruct (partition "*/" s) as [[a r]|] eqn:Hp; [|reflexivity].
  rewrite (bind_Ok_intro _ _ _ eq_refl), splitn_S.
  destruct (contains_char_partition "(" _ _ _ _ Hs Hp) as [_ Hr].
  apply (contains_char_before "(" "*/") in Hr.
  unfold char in Hr. rewrite (contains_partition _ _ Hr). reflexivity.
Qed.

(** An entry that lacks the comment opener, the comment closer, an opening
    parenthesis or the text [.picture_aspect_ratio] ends in an
    [IndexError], whatever else it holds. *)
Theorem missing_delimiter (s : string) :
  contains "/*" s = false \/ contains "*/" s = false \/
  contains "(" s = false \/ contains ".picture_aspect_ratio" s = false ->
  parse_mode_string s = Err IndexError.
Proof.
  intros H. unfold parse_mode_string.
  assert (Hd : decode s = Err IndexError); [|rewrite Hd; reflexivity].
  unfold decode.
  destruct H as [H|[H|[H|H]]].
  - unfold split_comment.
    rewrite (split_second "/*" ltac:(discriminate) s).
    rewrite (contains_partition _ _ H). reflexivity.
  - destruct (split_comment_cases s) as [[x ->]| ->]; [|reflexivity].
    rewrite (bind_Ok_intro _ _ _ eq_refl).
    unfold split_macro.
    rewrite (split_second "*/" ltac:(discriminate) s).
    rewrite (contains_partition _ _ H). reflexivity.
  - destruct (split_comment_cases s) as [[x ->]| ->]; [|reflexivity].
    rewrite (bind_Ok_intro _ _ _ eq_refl).
    rewrite (split_macro_no_open s H). reflexivity.
  - destruct (split_comment_cases s) as [[x ->]| ->]; [|reflexivity].
    rewrite (bind_Ok_intro _ _ _ eq_refl).
    destruct (split_macro_cases s) as [[y ->]| ->]; [|reflexivity].
    rewrite (bind_Ok_intro _ _ _ eq_refl).
    unfold split_aspect.
    rewrite (split_second ".picture_aspect_ratio" ltac:(discriminate) s).
    rewrite (contains_partition _ _ H). reflexivity.
Qed.

Lemma missing_delimiter_witness :
  parse_mode_string "/* 16 - 1920x1080@60Hz 16:9 */ { DRM_MODE(1, 2) },"
    = Err IndexError.
Proof.
  apply missing_delimiter. right. right. right. vm_compute. reflexivity.
Defined.

(** ** The parameter list *)

Lemma concat_empty_cons (x : string) (l : list string) :
  String.concat "" (x :: l) = x ++ String.concat "" l.
Proof.
  destruct l as [|y l]; simpl.
  - rewrite str_app_nil_r. reflexivity.
  - reflexivity.
Qed.

(** [s.replace(c, "")] removes the characters [c]. *)
Lemma replace_char_remove (ch : ascii) (s : string) :
  replace (char ch) "" s = remove_char ch s.
Proof.
  unfold replace. induction s as [|c s IH]; [reflexivity|].
  rewrite split_char_cons. simpl remove_char.
  destruct (Ascii.eqb ch c).
  - rewrite concat_empty_cons. exact IH.
  - pose proof (split_nonempty _ (char_nonempty ch) s) as Hne.
    destruct (split (char ch) s) as [|h t]; [congruence|].
    rewrite concat_empty_cons, str_app_cons.
    rewrite concat_empty_cons in IH. rewrite IH. reflexivity.
Qed.

Lemma remove_char_app (ch : ascii) (s t : string) :
  remove_char ch (s ++ t) = remove_char ch s ++ remove_char ch t.
Proof.
  induction s as [|c s IH]; [reflexivity|].
  rewrite str_app_cons. simpl. destruct (Ascii.eqb ch c); [exact IH|].
  rewrite str_app_cons, IH. reflexivity.
Qed.

(** A space anywhere in the parameter list changes nothing: line 96
    removes the spaces before it cuts the list at the commas. *)
Theorem parse_macro_ignores_spaces (a b : string) :
  parse_macro (a ++ " " ++ b) = parse_macro (a ++ b).
Proof.
  unfold parse_macro.
  pose proof (replace_char_remove " " (a ++ " " ++ b)) as H1.
  pose proof (replace_char_remove " " (a ++ b)) as H2.
  unfold char in H1, H2. rewrite H1, H2.
  rewrite !remove_char_app. reflexivity.
Qed.

(** The parameter list is decoded by position: [parse_macro] fails with a
    [ValueError] unless the list, without its spaces, has exactly fourteen
    fields between commas, and on success the fields of the result are
    those fourteen in order, the name without its quotes and the last
    field cut at the bars. *)
Theorem parse_macro_positional (macro : string) :
  (length (split "," (replace " " "" macro)) <> 14%nat ->
   parse_macro macro = Err ValueError) /\
  (forall k, parse_macro macro = Ok k ->
     exists quoted flags_field,
       split "," (replace " " "" macro) =
         [ quoted; mac_type k; mac_clock k; mac_hdisplay k;
           mac_hsync_start k; mac_hsync_end k; mac_htotal k; mac_hskew k;
           mac_vdisplay k; mac_vsync_start k; mac_vsync_end k; mac_vtotal k;
           mac_vscan k; flags_field ] /\
       mac_name k = replace dq "" quoted /\
       mac_flags k = List.map strip (split "|" flags_field)).
Proof.
  unfold parse_macro. split.
  - intros Hlen.
    repeat (match goal with
            | |- match ?l with [] => _ | _ :: _ => _ end = _ =>
                destruct l; [reflexivity|]
            end).
    match goal with
    | |- match ?l with [] => _ | _ :: _ => _ end = _ =>
        destruct l; [|reflexivity]
    end.
    exfalso. apply Hlen. reflexivity.
  - intros k H.
    repeat (match type of H with
            | match ?l with [] => _ | _ :: _ => _ end = _ =>
                destruct l; [discriminate H|]
            end).
    match type of H with
    | match ?l with [] => _ | _ :: _ => _ end = _ =>
        destruct l; [|discriminate H]
    end.
    apply bind_Ok in H. destruct H as (? & _ & H).
    apply bind_Ok in H. destruct H as ([? ?] & _ & H).
    inversion H; subst; simpl. eauto.
Qed.

Lemma parse_macro_positional_witness :
  exists k quoted flags_field,
    parse_macro macro_1080p = Ok k /\
    split "," (replace " " "" macro_1080p) =
      [ quoted; mac_type k; mac_clock k; mac_hdisplay k;
        mac_hsync_start k; mac_hsync_end k; mac_htotal k; mac_hskew k;
        mac_vdisplay k; mac_vsync_start k; mac_vsync_end k; mac_vtotal k;
        mac_vscan k; flags_field ] /\
    mac_name k = replace dq "" quoted.
Proof.
  destruct (parse_macro macro_1080p) as [k|] eqn:Hk;
    [|vm_compute in Hk; discriminate Hk].
  destruct (proj2 (parse_macro_positional macro_1080p) k Hk)
    as (quoted & flags_field & Hsplit & Hname & _).
  exists k, quoted, flags_field. auto.
Defined.

(** ** The loop of [parse_c_file] *)

Lemma run_app (arrays : list string) (l1 l2 : list string) :
  forall st,
    run arrays (l1 ++ l2) st = (st' ← run arrays l1 st; run arrays l2 st').
Proof.
  induction l1 as [|l l1 IH]; intros st; [reflexivity|].
  simpl. destruct (step arrays st l) as [st1|e]; [|reflexivity].
  simpl. apply IH.
Qed.

(** A line that starts a comment does not close an array or declare one. *)
Lemma comment_start (line : string) :
  startswith line "/*" = true ->
  startswith line "};" = false /\
  startswith line "static const struct drm_display_mode" = false.
Proof.
  unfold startswith. destruct line as [|c line]; [discriminate|].
  change (String.prefix "/*" (String c line))
    with (if ascii_dec "/" c then String.prefix "*" line else false).
  destruct (ascii_dec "/" c) as [E|E]; [|discriminate].
  subst c. intros _. split; reflexivity.
Qed.

Lemma comment_start_declared (arrays : list string) (line : string) :
  startswith line "/*" = true -> declared arrays line = Ok None.
Proof.
  intros H. unfold declared.
  rewrite (proj2 (comment_start line H)). reflexivity.
Qed.

(** While no array is open, a line that declares no included array
    changes nothing but the pending text. *)
Lemma step_closed (arrays : list string) (st : scan) (line : string) :
  truthy (current_array st) = false ->
  declared arrays (strip line) = Ok None ->
  exists st', step arrays st line = Ok st' /\
              truthy (current_array st') = false /\
              video_modes st' = video_modes st /\
              printed st' = printed st.
Proof.
  intros Hc Hd. unfold step.
  destruct (startswith (strip line) "};").
  { eexists. split; [reflexivity|]. simpl. auto. }
  rewrite Hd. simpl. rewrite Hc. exists st. auto.
Qed.

Lemma run_closed (arrays : list string) (lines : list string) :
  forall st,
    truthy (current_array st) = false ->
    Forall (fun l => declared arrays (strip l) = Ok None) lines ->
    exists st', run arrays lines st = Ok st' /\
                truthy (current_array st') = false /\
                video_modes st' = video_modes st /\
                printed st' = printed st.
Proof.
  induction lines as [|l lines IH]; intros st Hc Hl.
  - exists st. simpl. auto.
  - inversion Hl as [|? ? Hd Hrest]; subst.
    destruct (step_closed arrays st l Hc Hd) as (st1 & H1 & Hc1 & Hv1 & Hp1).
    destruct (IH st1 Hc1 Hrest) as (st2 & H2 & Hc2 & Hv2 & Hp2).
    exists st2. simpl. rewrite H1. simpl.
    split; [exact H2|]. split; [exact Hc2|]. split; congruence.
Qed.

(** Lines 183 to 185, case by case. *)
Lemma declared_eq (arrays : list string) (line : string) :
  declared arrays line =
  if startswith line "static const struct drm_display_mode" then
    match split_ws line !! 4%nat with
    | Some tok =>
        Ok (if bool_decide (strip (before "[" tok) ∈ arrays)
            then Some (strip (before "[" tok)) else None)
    | None => Err IndexError
    end
  else Ok None.
Proof.
  unfold declared.
  destruct (startswith line "static const struct drm_display_mode");
    [|reflexivity].
  change (item (split_ws line) 4)
    with (match split_ws line !! 4%nat with
          | Some tok => Ok tok
          | None => Err IndexError
          end).
  destruct (split_ws line !! 4%nat) as [tok|]; [|reflexivity].
  simpl. rewrite (split_head "[") by discriminate. reflexivity.
Qed.

Lemma declared_None (arrays : list string) (line : string) :
  declared arrays line = Ok None <-> passed_over arrays line.
Proof.
  rewrite declared_eq. unfold passed_over.
  destruct (startswith line "static const struct drm_display_mode").
  - destruct (split_ws line !! 4%nat) as [tok|].
    + destruct (bool_decide (strip (before "[" tok) ∈ arrays)) eqn:Hin.
      * apply bool_decide_eq_true in Hin. split; [discriminate|].
        intros [H|(tok' & Htok & Hn)]; [discriminate|].
        inversion Htok; subst. contradiction.
      * apply bool_decide_eq_false in Hin. split; [|reflexivity].
        intros _. right. exists tok. auto.
    + split; [discriminate|].
      intros [H|(tok' & Htok & _)]; discriminate.
  - split; [intros _; left|]; reflexivity.
Qed.

Lemma declared_cut_short (arrays : list string) (line : string) :
  (cut_short line = true -> declared arrays line = Err IndexError) /\
  (cut_short line = false -> exists d, declared arrays line = Ok d).
Proof.
  rewrite declared_eq. unfold cut_short.
  destruct (startswith line "static const struct drm_display_mode"); simpl.
  - destruct (split_ws line !! 4%nat) as [tok|] eqn:Htok.
    + apply lookup_lt_Some in Htok.
      split; [intros H; apply Nat.ltb_lt in H; lia|].
      intros _. eexists. reflexivity.
    + apply lookup_ge_None in Htok.
      split; [reflexivity|]. intros H. apply Nat.ltb_ge in H. lia.
  - split; [discriminate|]. intros _. eexists. reflexivity.
Qed.

Lemma close_not_cut_short (line : string) :
  startswith line "};" = true -> cut_short line = false.
Proof.
  unfold cut_short, startswith. destruct line as [|c line]; [discriminate|].
  change (String.prefix "};" (String c line))
    with (if ascii_dec "}" c then String.prefix ";" line else false).
  destruct (ascii_dec "}" c) as [E|E]; [|discriminate].
  subst c. intros _. reflexivity.
Qed.

(** While no array is open and no line declares an included array, the
    run goes on to the first line that is cut short and stops there. *)
Lemma run_undeclared (arrays : list string) (lines : list string) :
  forall st,
    truthy (current_array st) = false ->
    Forall (fun l => forall a, declared arrays (strip l) <> Ok (Some a))
      lines ->
    if existsb (fun l => cut_short (strip l)) lines
    then run arrays lines st = Err IndexError
    else exists st', run arrays lines st = Ok st' /\
                     video_modes st' = video_modes st /\
                     printed st' = printed st.
Proof.
  induction lines as [|l lines IH]; intros st Hc Hl.
  - simpl. exists st. auto.
  - inversion Hl as [|? ? Hd Hrest]; subst.
    simpl existsb. simpl run.
    destruct (cut_short (strip l)) eqn:Hcut; simpl orb.
    + unfold step.
      destruct (startswith (strip l) "};") eqn:Hclose.
      { apply close_not_cut_short in Hclose. congruence. }
      rewrite (proj1 (declared_cut_short arrays (strip l)) Hcut).
      reflexivity.
    + destruct (proj2 (declared_cut_short arrays (strip l)) Hcut)
        as (d & Hdecl).
      destruct d as [a|]; [destruct (Hd a Hdecl)|].
      destruct (step_closed arrays st l Hc Hdecl)
        as (st1 & H1 & Hc1 & Hv1 & Hp1).
      rewrite H1. simpl mbind.
      specialize (IH st1 Hc1 Hrest).
      destruct (existsb (fun l0 => cut_short (strip l0)) lines).
      * exact IH.
      * destruct IH as (st2 & H2 & Hv2 & Hp2).
        exists st2. split; [exact H2|]. split; congruence.
Qed.

(** A text in which no line declares an array of the include list yields
    no record and no warning, whatever else it holds: the entries of
    other tables, and any text outside a table, are skipped.  The one
    exception is a line that starts the declaration of a mode table and
    has fewer than five words: at the first such line the run ends in an
    [IndexError]. *)
Theorem undeclared_text_skipped (file_content : string)
    (arrays : list string) :
  Forall (fun l => forall a, declared arrays (strip l) <> Ok (Some a))
    (split nl file_content) ->
  parse_c_file file_content arrays
  = if existsb (fun l => cut_short (strip l)) (split nl file_content)
    then Err IndexError else Ok ([], []).
Proof.
  intros H. unfold parse_c_file.
  pose proof (run_undeclared arrays _ init eq_refl H) as Hrun.
  destruct (existsb (fun l => cut_short (strip l)) (split nl file_content)).
  - rewrite Hrun. reflexivity.
  - destruct Hrun as (st & Hrun & Hv & Hp).
    rewrite Hrun. simpl. rewrite Hv, Hp. reflexivity.
Qed.

Lemma undeclared_text_skipped_witness :
  parse_c_file doc_other_table arrays_to_include = Ok ([], []) /\
  parse_c_file doc_short_declaration arrays_to_include = Err IndexError.
Proof.
  split.
  - refine (undeclared_text_skipped doc_other_table arrays_to_include _).
    vm_compute split.
    repeat (constructor; [intros a; vm_compute; discriminate|]).
    constructor.
  - refine (undeclared_text_skipped doc_short_declaration
              arrays_to_include _).
    vm_compute split.
    repeat (constructor; [intros a; vm_compute; discriminate|]).
    constructor.
Defined.

Lemma step_header (arrays : list string) (st : scan)
    (line array_name : string) :
  startswith (strip line) "};" = false ->
  declared arrays (strip line) = Ok (Some array_name) ->
  step arrays st line
  = Ok {| current_array := Some array_name; mode_string := mode_string st;
          video_modes := video_modes st; printed := printed st |}.
Proof. intros Hc Hd. unfold step. rewrite Hc, Hd. reflexivity. Qed.

Lemma step_close (arrays : list string) (st : scan) (line : string) :
  startswith (strip line) "};" = true ->
  step arrays st line
  = Ok {| current_array := None; mode_string := PyNone;
          video_modes := video_modes st; printed := printed st |}.
Proof. intros Hc. unfold step. rewrite Hc. reflexivity. Qed.

(** *** Entries of several lines *)

Lemma concat_empty_app (l1 l2 : list string) :
  String.concat "" (l1 ++ l2) = String.concat "" l1 ++ String.concat "" l2.
Proof.
  induction l1 as [|x l1 IH]; [reflexivity|].
  change ((x :: l1) ++ l2)%list with (x :: (l1 ++ l2))%list.
  rewrite !concat_empty_cons, IH, str_app_assoc. reflexivity.
Qed.

Lemma entry_text_of_snoc (lines : list string) (line : string) :
  entry_text_of (lines ++ [line]) = entry_text_of lines ++ strip line.
Proof.
  unfold entry_text_of. rewrite List.map_app, concat_empty_app. reflexivity.
Qed.

Lemma step_first_line (arrays : list string) (st : scan) (line : string) :
  truthy (current_array st) = true ->
  startswith (strip line) "/*" = true ->
  endswith (strip line) "}," = false ->
  step arrays st line = Ok (collecting st (strip line)).
Proof.
  intros Hc Hs He. unfold step.
  rewrite (proj1 (comment_start _ Hs)).
  rewrite (comment_start_declared arrays _ Hs). simpl.
  rewrite Hc. unfold accumulate. rewrite Hs. simpl. rewrite He. reflexivity.
Qed.

Lemma step_continuation (arrays : list string) (st : scan)
    (text line : string) :
  truthy (current_array st) = true ->
  mode_string st = PyStr text ->
  continuation arrays line ->
  endswith (strip line) "}," = false ->
  step arrays st line = Ok (collecting st (text ++ strip line)).
Proof.
  intros Hc Hm (Hs & Hclose & Hd) He. unfold step.
  rewrite Hclose, Hd. simpl. rewrite Hc. unfold accumulate.
  rewrite Hs, Hm. simpl. rewrite He. reflexivity.
Qed.

Lemma run_continuations (arrays : list string) (mid : list string) :
  forall (st : scan) (text : string),
    truthy (current_array st) = true ->
    mode_string st = PyStr text ->
    Forall (fun l => continuation arrays l /\
                     endswith (strip l) "}," = false) mid ->
    run arrays mid st
    = Ok (collecting st (text ++ entry_text_of mid)).
Proof.
  induction mid as [|l mid IH]; intros st text Hc Hm Hmid.
  - simpl. unfold entry_text_of. simpl. rewrite str_app_nil_r.
    destruct st; simpl in *; subst. reflexivity.
  - inversion Hmid as [|? ? [Hl He] Hrest]; subst.
    simpl. rewrite (step_continuation arrays st text l Hc Hm Hl He). simpl.
    rewrite (IH (collecting st (text ++ strip l)) (text ++ strip l)
               Hc eq_refl Hrest).
    unfold entry_text_of. simpl List.map.
    rewrite concat_empty_cons, str_app_assoc. reflexivity.
Qed.

(** The lines of one entry add its record and what its check printed. *)
Lemma run_entry (arrays : list string) (lines : list string) (st : scan)
    (m : VideoMode) (out : list warning) :
  truthy (current_array st) = true ->
  entry_lines arrays lines ->
  parse_mode_string (entry_text_of lines) = Ok (m, out) ->
  run arrays lines st
  = Ok {| current_array := current_array st;
          mode_string := PyStr (entry_text_of lines);
          video_modes := video_modes st ++ [m];
          printed := printed st ++ out |}.
Proof.
  intros Hc Hlines Hparse.
  destruct Hlines as [first Hs He | first mid final Hs He Hmid Hf Hfe].
  - unfold entry_text_of in *. simpl in Hparse |- *.
    unfold step.
    rewrite (proj1 (comment_start _ Hs)).
    rewrite (comment_start_declared arrays _ Hs). simpl.
    rewrite Hc. unfold accumulate. rewrite Hs. simpl. rewrite He.
    rewrite Hparse. reflexivity.
  - change (first :: mid ++ [final])%list
      with ([first] ++ (mid ++ [final]))%list in *.
    rewrite run_app. simpl run at 2.
    rewrite (step_first_line arrays st first Hc Hs He). simpl mbind.
    rewrite run_app.
    rewrite (run_continuations arrays mid (collecting st (strip first))
               (strip first) Hc eq_refl Hmid).
    simpl mbind.
    assert (Htext : entry_text_of ([first] ++ mid ++ [final])
                    = (strip first ++ entry_text_of mid) ++ strip final).
    { rewrite List.app_assoc, entry_text_of_snoc. f_equal.
      unfold entry_text_of. simpl List.map. apply concat_empty_cons. }
    rewrite Htext in *.
    destruct Hf as (Hfs & Hfc & Hfd).
    simpl run. unfold step. rewrite Hfc, Hfd. simpl.
    rewrite Hc. unfold accumulate. rewrite Hfs. simpl. rewrite Hfe.
    rewrite Hparse. reflexivity.
Qed.

Lemma run_entries (arrays : list string) (entries : list (list string)) :
  forall (st : scan) (records : list (VideoMode * list warning)),
    truthy (current_array st) = true ->
    Forall2 (fun ls r => entry_lines arrays ls /\
                         parse_mode_string (entry_text_of ls) = Ok r)
      entries records ->
    exists st',
      run arrays (List.concat entries) st = Ok st' /\
      current_array st' = current_array st /\
      video_modes st' = (video_modes st ++ records.*1)%list /\
      printed st' = (printed st ++ List.concat records.*2)%list.
Proof.
  induction entries as [|ls entries IH]; intros st records Hc Hall.
  - inversion Hall; subst. exists st. simpl.
    rewrite !List.app_nil_r. auto.
  - inversion Hall as [|? [m out] ? records' [Hls Hp] Hrest]; subst.
    simpl List.concat. rewrite run_app.
    rewrite (run_entry arrays ls st m out Hc Hls Hp). simpl mbind.
    destruct (IH {| current_array := current_array st;
                    mode_string := PyStr (entry_text_of ls);
                    video_modes := video_modes st ++ [m];
                    printed := printed st ++ out |} records' Hc Hrest)
      as (st' & Hrun & Ha & Hv & Hpr).
    exists st'. split; [exact Hrun|]. simpl in *.
    split; [exact Ha|].
    rewrite Hv, Hpr, <- !List.app_assoc. auto.
Qed.

(** A file with one table of an included array, whose entries each pass
    [parse_mode_string], yields the records of the entries in the order
    of the source, and the warnings in that order.  The file is: lines
    before the table; the declaration of an array of the include list,
    with a name that is not empty; the entries; a line that starts with
    the close of the array; lines after the table.  An entry may span
    several lines, as in [drm_edid.c], and is [entry_lines]: the first
    line starts a comment; every later line starts neither a comment nor
    the close of the array and is passed over by lines 183 to 185
    ([passed_over]: no declaration of a mode table, or one of at least
    five words that names an array outside the include list); the last
    line, and no line before it, ends the entry.  The text of an entry is
    its lines, stripped and joined.  The lines before and after the table
    are skipped under the same condition: each of them is passed over by
    lines 183 to 185. *)
Theorem table_of_entries (file_content : string) (arrays : list string)
    (before_it after_it : list string) (header array_name close : string)
    (entries : list (list string))
    (records : list (VideoMode * list warning)) :
  split nl file_content
  = (before_it ++ header :: List.concat entries ++ close :: after_it)%list ->
  Forall (fun l => declared arrays (strip l) = Ok None) before_it ->
  startswith (strip header) "};" = false ->
  declared arrays (strip header) = Ok (Some array_name) ->
  array_name <> "" ->
  Forall2 (fun ls r => entry_lines arrays ls /\
                       parse_mode_string (entry_text_of ls) = Ok r)
    entries records ->
  startswith (strip close) "};" = true ->
  Forall (fun l => declared arrays (strip l) = Ok None) after_it ->
  parse_c_file file_content arrays
  = Ok (records.*1, List.concat records.*2).
Proof.
  intros Hlines Hpre Hh Hd Hname Hall Hclose Hpost.
  unfold parse_c_file. rewrite Hlines, run_app.
  destruct (run_closed arrays before_it init eq_refl Hpre)
    as (st0 & Hrun0 & _ & Hv0 & Hp0).
  rewrite Hrun0. simpl mbind.
  rewrite (step_header arrays st0 header array_name Hh Hd). simpl mbind.
  rewrite run_app.
  match goal with
  | |- context [run arrays (List.concat entries) ?st1] =>
      destruct (run_entries arrays entries st1 records)
        as (st' & Hrun & Ha & Hv & Hp)
  end.
  { simpl. destruct array_name; [congruence | reflexivity]. }
  { exact Hall. }
  rewrite Hrun. simpl mbind.
  rewrite (step_close arrays st' close Hclose). simpl mbind.
  match goal with
  | |- context [run arrays after_it ?st2] =>
      destruct (run_closed arrays after_it st2 eq_refl Hpost)
        as (st3 & Hrun3 & _ & Hv3 & Hp3)
  end.
  rewrite Hrun3. simpl in *. rewrite Hv3, Hp3, Hv, Hp, Hv0, Hp0.
  reflexivity.
Qed.

Lemma table_of_entries_witness :
  parse_c_file doc_1080p arrays_to_include = Ok ([mode_1080p], []).
Proof.
  apply (table_of_entries doc_1080p arrays_to_include [] [""]
           table_open "edid_cea_modes_1" "};"
           [lines_1080p] [(mode_1080p, [])]).
  - vm_compute. reflexivity.
  - constructor.
  - vm_compute. reflexivity.
  - vm_compute. reflexivity.
  - discriminate.
  - constructor; [|constructor]. split; [|vm_compute; reflexivity].
    apply (entry_more_lines arrays_to_include
             (tab ++ "/* 16 - 1920x1080@60Hz 16:9 */")
             [ tab ++ "{ DRM_MODE(" ++ dq ++ "1920x1080" ++ dq ++
                 ", DRM_MODE_TYPE_DRIVER, 148500, 1920, 2008,";
               tab ++ tab ++ "   2052, 2200, 0, 1080, 1084, 1089, 1125, 0,";
               tab ++ tab ++
                 "   DRM_MODE_FLAG_PHSYNC | DRM_MODE_FLAG_PVSYNC)," ]
             (tab ++ "  .picture_aspect_ratio = HDMI_PICTURE_ASPECT_16_9, },")).
    + vm_compute. reflexivity.
    + vm_compute. reflexivity.
    + repeat constructor; vm_compute; reflexivity.
    + repeat split; vm_compute; reflexivity.
    + vm_compute. reflexivity.
  - vm_compute. reflexivity.
  - repeat constructor.
Defined.

(** *** Earlier lines decide *)





(** *** Lines that the loop cannot take *)

(** In an open array, a [continuation] is appended to the text of the
    entry: a line that starts neither a comment nor the close of the
    array, and that lines 183 to 185 pass over ([passed_over]: it is no
    declaration of a mode table, or it is one of at least five words that
    names an array outside the include list; a declaration of fewer
    words ends the run in an [IndexError] at line 184 instead).  Before
    the first comment line
    of the file there is no such text, and the run ends in an
    [UnboundLocalError]; after the close of an earlier array the text is
    [None], and the run ends in a [TypeError]. *)
Theorem entry_without_comment (file_content : string) (arrays : list string)
    (before_it after_it : list string) (line : string) (st : scan) :
  split nl file_content = (before_it ++ line :: after_it)%list ->
  run arrays before_it init = Ok st ->
  truthy (current_array st) = true ->
  continuation arrays line ->
  (mode_string st = Unbound ->
   parse_c_file file_content arrays = Err UnboundLocalError) /\
  (mode_string st = PyNone ->
   parse_c_file file_content arrays = Err TypeError).
Proof.
  intros Hlines Hrun Hc (Hs & Hclose & Hd).
  unfold parse_c_file. rewrite Hlines, run_app, Hrun. simpl.
  unfold step. rewrite Hclose, Hd. simpl. rewrite Hc.
  unfold accumulate. rewrite Hs.
  split; intros ->; reflexivity.
Qed.

Lemma entry_without_comment_witness :
  parse_c_file doc_no_comment arrays_to_include = Err UnboundLocalError.
Proof.
  refine (proj1 (entry_without_comment doc_no_comment arrays_to_include
                   [table_open] [] "{ DRM_MODE(" _ _ _ _ _) _).
  - vm_compute. reflexivity.
  - vm_compute. reflexivity.
  - reflexivity.
  - repeat split; vm_compute; reflexivity.
  - reflexivity.
Defined.

(** A line that starts with the declaration of a mode table and has
    fewer than five words ends the run in an [IndexError], in any state
    of the loop, whatever the include list. *)
Theorem short_declaration (file_content : string) (arrays : list string)
    (before_it after_it : list string) (line : string) (st : scan) :
  split nl file_content = (before_it ++ line :: after_it)%list ->
  run arrays before_it init = Ok st ->
  startswith (strip line) "static const struct drm_display_mode" = true ->
  (length (split_ws (strip line)) < 5)%nat ->
  parse_c_file file_content arrays = Err IndexError.
Proof.
  intros Hlines Hrun Hs Hlen.
  unfold parse_c_file. rewrite Hlines, run_app, Hrun. simpl.
  unfold step.
  assert (Hclose : startswith (strip line) "};" = false).
  { unfold startswith in *. destruct (strip line) as [|c l]; [reflexivity|].
    change (String.prefix "static const struct drm_display_mode" (String c l))
      with (if ascii_dec "s" c
            then String.prefix "tatic const struct drm_display_mode" l
            else false) in Hs.
    destruct (ascii_dec "s" c) as [E|E]; [|discriminate].
    subst c. reflexivity. }
  rewrite Hclose. unfold declared. rewrite Hs.
  unfold item. rewrite (lookup_ge_None_2 _ 4) by lia. reflexivity.
Qed.

Lemma short_declaration_witness :
  parse_c_file doc_short_declaration arrays_to_include = Err IndexError.
Proof.
  apply (short_declaration doc_short_declaration arrays_to_include
           [] ["x[] = {"] "static const struct drm_display_mode" init).
  - vm_compute. reflexivity.
  - reflexivity.
  - vm_compute. reflexivity.
  - vm_compute. lia.
Defined.

(** *** One table after the other *)

Lemma step_continues (arrays : list string) (modes : list VideoMode)
    (out : list warning) (line : string) (st fresh fresh' : scan) :
  continues modes out st fresh ->
  step arrays fresh line = Ok fresh' ->
  exists st', step arrays st line = Ok st' /\ continues modes out st' fresh'.
Proof.
  intros (Ha & Hm & Hv & Hp) H. unfold step in *.
  destruct (startswith (strip line) "};").
  { inversion H; subst. eexists. split; [reflexivity|].
    repeat split; simpl; try assumption. discriminate. }
  destruct (declared arrays (strip line)) as [d|e]; [|discriminate H].
  simpl in H |- *. destruct d as [array_name|].
  { inversion H; subst. eexists. split; [reflexivity|].
    repeat split; simpl; assumption. }
  rewrite Ha.
  destruct (truthy (current_array fresh)).
  2: { inversion H; subst. exists st. split; [reflexivity|].
       repeat split; assumption. }
  apply bind_Ok in H. destruct H as (ms & Hacc & H).
  assert (Hacc' : accumulate (mode_string st) (strip line) = Ok ms).
  { unfold accumulate in *.
    destruct (startswith (strip line) "/*"); [exact Hacc|].
    destruct (mode_string fresh) as [| |text] eqn:Hf; try discriminate Hacc.
    rewrite (Hm text eq_refl). exact Hacc. }
  rewrite Hacc'. simpl.
  destruct (endswith (strip line) "},").
  - apply bind_Ok in H. destruct H as ([m w] & Hparse & H).
    inversion H; subst. rewrite Hparse. simpl.
    eexists. split; [reflexivity|].
    repeat split; simpl.
    + intros text E. exact E.
    + rewrite Hv, <- List.app_assoc. reflexivity.
    + rewrite Hp, <- List.app_assoc. reflexivity.
  - inversion H; subst. eexists. split; [reflexivity|].
    repeat split; simpl; try assumption. intros text E. exact E.
Qed.

Lemma run_continues (arrays : list string) (modes : list VideoMode)
    (out : list warning) (lines : list string) :
  forall st fresh fresh',
    continues modes out st fresh ->
    run arrays lines fresh = Ok fresh' ->
    exists st', run arrays lines st = Ok st' /\
                continues modes out st' fresh'.
Proof.
  induction lines as [|l lines IH]; simpl; intros st fresh fresh' Hc H.
  - inversion H; subst. exists st. auto.
  - apply bind_Ok in H. destruct H as (fresh1 & H1 & H).
    destruct (step_continues arrays modes out l st fresh fresh1 Hc H1)
      as (st1 & Hs1 & Hc1).
    rewrite Hs1. simpl. exact (IH st1 fresh1 fresh' Hc1 H).
Qed.

(** Texts compose where no array is open: if the first text ends with no
    array open and the second text succeeds on its own, then the first
    text followed by the second yields the records and warnings of the
    first followed by those of the second. *)
Theorem texts_compose (first second both : string) (arrays : list string)
    (st : scan) (modes : list VideoMode) (out : list warning) :
  split nl both = (split nl first ++ split nl second)%list ->
  run arrays (split nl first) init = Ok st ->
  current_array st = None ->
  parse_c_file second arrays = Ok (modes, out) ->
  parse_c_file both arrays
  = Ok ((video_modes st ++ modes)%list, (printed st ++ out)%list).
Proof.
  intros Hlines Hrun Hclosed Hsecond. unfold parse_c_file in *.
  rewrite Hlines, run_app, Hrun. simpl mbind.
  apply bind_Ok in Hsecond. destruct Hsecond as (fresh & Hfresh & E).
  inversion E; subst.
  destruct (run_continues arrays (video_modes st) (printed st)
              (split nl second) st init fresh) as (st' & Hrun' & Hc).
  { repeat split; simpl.
    - exact Hclosed.
    - discriminate.
    - rewrite List.app_nil_r. reflexivity.
    - rewrite List.app_nil_r. reflexivity. }
  { exact Hfresh. }
  rewrite Hrun'. simpl.
  destruct Hc as (_ & _ & -> & ->). reflexivity.
Qed.

Lemma texts_compose_witness :
  parse_c_file doc_both_tables arrays_to_include
  = Ok ([mode_1080p; mode_rate 1000], []).
Proof.
  apply (texts_compose doc_first_table doc_second_table doc_both_tables
           arrays_to_include
           {| current_array := None; mode_string := PyNone;
              video_modes := [mode_1080p]; printed := [] |}
           [mode_rate 1000] []).
  - vm_compute. reflexivity.
  - vm_compute. reflexivity.
  - reflexivity.
  - vm_compute. reflexivity.
Defined.

(** ** The tolerance of the refresh rate *)

(** Rounding keeps the sign: the result is a zero, a finite number or an
    infinity of the sign [sx], or not a number. *)
Lemma binary_round_aux_sign (sx : bool) (mx ex : Z) (lx : location) :
  match binary_round_aux prec emax sx mx ex lx with
  | S754_zero s | S754_infinity s | S754_finite s _ _ => s = sx
  | S754_nan => True
  end.
Proof.
  unfold binary_round_aux.
  destruct (shr_fexp prec emax mx ex lx) as [mrs' e'].
  destruct (shr_fexp prec emax _ e' loc_Exact) as [mrs'' e''].
  destruct (shr_m mrs'') as [|m|m]; [reflexivity| |exact I].
  destruct (e'' <=? emax - prec); reflexivity.
Qed.

(** A bound that is not positive is above no absolute value. *)
Lemma fabs_not_below (d y : float) :
  SFltb (S754_zero false) y = false -> fltb (fabs d) y = false.
Proof.
  unfold fltb, SFltb, fabs.
  destruct y as [sy|sy| |sy my ey]; destruct d as [sd|sd| |sd md ed];
    simpl; try reflexivity; destruct sy; simpl; try reflexivity;
    try discriminate.
Qed.

Lemma tolerance_not_positive (stated : float) :
  SFltb (S754_zero false) stated = false ->
  SFltb (S754_zero false) (fmul f0_005 stated) = false.
Proof.
  unfold fmul, f0_005.
  destruct stated as [s|s| |s m e]; simpl; try reflexivity.
  - destruct s; [reflexivity | discriminate].
  - destruct s; [|discriminate]. intros _.
    match goal with
    | |- context [binary_round_aux ?p ?q ?sx ?mx ?ex ?lx] =>
        generalize (binary_round_aux_sign sx mx ex lx);
        change prec with p; change emax with q;
        destruct (binary_round_aux p q sx mx ex lx) as [s'|s'| |s' m' e']
    end; try reflexivity; intros ->; reflexivity.
Qed.

(** The tolerance is a share of the rate of the comment, so there is none
    unless that rate is positive: when it is zero, negative or not a
    number, the rate check passes only if the computed rate equals it,
    prints nothing, and fails otherwise. *)
Theorem no_tolerance_unless_positive (c : ParsedComment)
    (stated fps : float) :
  float_of_str (cmnt_freq c) = Ok stated ->
  SFltb (S754_zero false) stated = false ->
  check_fps c fps = if feqb fps stated then Ok [] else Err AssertionError.
Proof.
  intros Hst Hneg. unfold check_fps. rewrite Hst. simpl.
  destruct (feqb fps stated); [reflexivity|]. simpl.
  rewrite (fabs_not_below _ _ (tolerance_not_positive stated Hneg)).
  reflexivity.
Qed.

Lemma no_tolerance_unless_positive_witness :
  check_fps comment_nan (S754_finite false 7036874417766400 (-46))
  = Err AssertionError.
Proof.
  apply (no_tolerance_unless_positive comment_nan S754_nan
           (S754_finite false 7036874417766400 (-46)));
    vm_compute; reflexivity.
Defined.

(** * Properties of [create_vhdl_pkg.py] *)

Lemma length_spaces (n : nat) : String.length (spaces n) = n.
Proof.
  induction n as [|n IH]; simpl; [reflexivity | rewrite IH; reflexivity].
Qed.

Lemma length_ljust (w : nat) (s : string) :
  String.length (ljust w s) = Nat.max w (String.length s).
Proof. unfold ljust. rewrite str_length_app, length_spaces. lia. Qed.

Lemma length_rjust (w : nat) (s : string) :
  String.length (rjust w s) = Nat.max w (String.length s).
Proof. unfold rjust. rewrite str_length_app, length_spaces. lia. Qed.

Lemma string_of_uint_nonempty (d : Decimal.uint) :
  d <> Decimal.Nil -> (1 <= String.length (NilEmpty.string_of_uint d))%nat.
Proof. destruct d; intros H; simpl; try lia. congruence. Qed.

Lemma width_positive (z : Z) : (1 <= width z)%nat.
Proof.
  unfold width, str_of_int, NilZero.string_of_int.
  destruct (Z.to_int z) as [d|d]; unfold NilZero.string_of_uint.
  - destruct d; simpl; lia.
  - destruct d; simpl; lia.
Qed.

Lemma length_bool (b : bool) :
  (String.length (lower_str (str_of_bool b)) <= 5)%nat.
Proof. destruct b; simpl; lia. Qed.

Lemma mode_record_length (mode : VideoMode) :
  String.length (mode_record mode) =
  (84 + Nat.max 3 (width (vic mode)) +
   Nat.max 20 (String.length (name mode)) +
   Nat.max 4 (width (vic mode)) + Nat.max 14 (width (pxl_clk_khz mode)) +
   Nat.max 8 (width (hactive mode)) + Nat.max 8 (width (vactive mode)) +
   Nat.max 7 (width (hfront mode)) + Nat.max 6 (width (hsync mode)) +
   Nat.max 6 (width (hback mode)) + width (hpol mode) +
   Nat.max 7 (width (vfront mode)) + Nat.max 6 (width (vsync mode)) +
   Nat.max 6 (width (vback mode)) + width (vpol mode) +
   width (ln mode))%nat.
Proof.
  unfold mode_record, width.
  repeat rewrite ?str_length_app, ?length_rjust, ?length_ljust.
  pose proof (length_bool (interlaced mode)).
  pose proof (length_bool (double_clocked mode)).
  change (String.length nl) with 1%nat.
  change (String.length dq) with 1%nat.
  simpl String.length. lia.
Qed.

(** Names each maximum of the goal and keeps that it bounds both of its
    arguments. *)
Ltac name_maxima :=
  repeat match goal with
         | |- context [Nat.max ?a ?b] =>
             let v := fresh "v" in
             pose proof (Nat.le_max_l a b);
             pose proof (Nat.le_max_r a b);
             set (v := Nat.max a b) in *; clearbody v
         end.

(** The text of a record has at least [record_width] characters, and it
    has exactly that many if and only if every field fits its column: a
    longer name or number is not cut, it widens the line. *)
Theorem record_line_width (mode : VideoMode) :
  (record_width <= String.length (mode_record mode))%nat /\
  (String.length (mode_record mode) = record_width <-> fits_columns mode).
Proof.
  rewrite mode_record_length. unfold fits_columns, record_width.
  pose proof (width_positive (hpol mode)).
  pose proof (width_positive (vpol mode)).
  pose proof (width_positive (ln mode)).
  split; [|split].
  - name_maxima. lia.
  - intros Hlen. name_maxima. repeat split; lia.
  - intros Hfit. decompose [and] Hfit.
    rewrite !Nat.max_l by lia. lia.
Qed.

Lemma foldl_append {A : Type} (f : A -> string) (l : list A) :
  forall text,
    foldl (fun text x => text ++ f x) text l
    = text ++ String.concat "" (f <$> l).
Proof.
  induction l as [|x l IH]; intros text; simpl foldl.
  - simpl. rewrite str_app_nil_r. reflexivity.
  - rewrite IH. change (f <$> x :: l) with (f x :: (f <$> l)).
    rewrite concat_empty_cons, str_app_assoc. reflexivity.
Qed.

Lemma foldl_max_bounds (l : list Z) :
  forall x,
    x <= foldl Z.max x l /\
    (forall y, y ∈ l -> y <= foldl Z.max x l) /\
    (foldl Z.max x l = x \/ foldl Z.max x l ∈ l).
Proof.
  induction l as [|z l IH]; intros x; simpl.
  - split; [lia|]. split; [|left; reflexivity].
    intros y Hy. inversion Hy.
  - destruct (IH (Z.max x z)) as (Hx & Hall & Hat).
    split; [lia|]. split.
    + intros y Hy. apply elem_of_cons in Hy. destruct Hy as [->|Hy].
      * lia.
      * exact (Hall y Hy).
    + destruct Hat as [Hat|Hat].
      * destruct (Z.max_spec x z) as [[_ E]|[_ E]]; rewrite E in Hat |- *.
        -- right. rewrite Hat. apply list_elem_of_here.
        -- left. exact Hat.
      * right. apply list_elem_of_further. exact Hat.
Qed.

(** The package of an empty list is a [ValueError].  For any other list
    the text is the head, the text of each record in the order of the
    list, and the tail; the upper bound of the array in the head is the
    largest mode identifier of the list. *)
Theorem package_of_records (video_timings : list VideoMode) :
  (video_timings = [] -> vhdl_package video_timings = Err ValueError) /\
  (video_timings <> [] ->
   exists max_index,
     (forall mode, mode ∈ video_timings -> vic mode <= max_index) /\
     (exists mode, mode ∈ video_timings /\ vic mode = max_index) /\
     vhdl_package video_timings
     = Ok (package_head max_index ++
           String.concat "" (mode_record <$> video_timings) ++
           package_tail)).
Proof.
  split; [intros ->; reflexivity|].
  intros Hne. destruct video_timings as [|m l]; [congruence|].
  unfold vhdl_package. simpl py_max.
  destruct (foldl_max_bounds (vic <$> l) (vic m)) as (Hm & Hall & Hat).
  exists (foldl Z.max (vic m) (vic <$> l)). split; [|split].
  - intros mode Hin. apply elem_of_cons in Hin. destruct Hin as [->|Hin].
    + exact Hm.
    + apply Hall. apply list_elem_of_fmap. exists mode. auto.
  - destruct Hat as [Hat|Hat].
    + exists m. split; [apply list_elem_of_here | symmetry; exact Hat].
    + apply list_elem_of_fmap in Hat. destruct Hat as (mode & E & Hin).
      exists mode. split; [apply list_elem_of_further; exact Hin|].
      symmetry. exact E.
  - simpl mbind. rewrite foldl_append.
    change (mode_record <$> m :: l)
      with (mode_record m :: (mode_record <$> l)).
    rewrite concat_empty_cons, !str_app_assoc. reflexivity.
Qed.

Lemma package_of_records_witness :
  exists max_index,
    (exists mode, mode ∈ [mode_1080p; mode_rate 1000] /\
                  vic mode = max_index) /\
    vhdl_package [mode_1080p; mode_rate 1000]
    = Ok (package_head max_index ++
          String.concat "" (mode_record <$> [mode_1080p; mode_rate 1000]) ++
          package_tail).
Proof.
  destruct (proj2 (package_of_records [mode_1080p; mode_rate 1000]))
    as (max_index & _ & Hat & Htext).
  - discriminate.
  - exists max_index. split; assumption.
Defined.

(** ** From one script to the other *)

(** In every record that [parse_mode_string] returns, the polarities are
    0 or 1 and ln is 1, 4 or 7, the value of [get_ln] at the mode
    identifier; so each of them is printed as one character, a valid
    [std_logic] literal and a value of the range 0 to 7. *)
Theorem accepted_record_literals (s : string) (m : VideoMode)
    (out : list warning) :
  parse_mode_string s = Ok (m, out) ->
  (hpol m = 0 \/ hpol m = 1) /\ (vpol m = 0 \/ vpol m = 1) /\
  ln m = get_ln (vic m) /\ (ln m = 1 \/ ln m = 4 \/ ln m = 7) /\
  width (hpol m) = 1%nat /\ width (vpol m) = 1%nat /\ width (ln m) = 1%nat.
Proof.
  intros Hs.
  destruct (accepted_entry _ _ _ Hs) as (c & k & aspect & _ & _ & Hb).
  apply build_mode_fields in Hb.
  destruct Hb as (? & ? & ? & ? & ? & ? & ? & ? & ? & Hb).
  destruct Hb as (_ & _ & _ & _ & _ & _ & _ & _ & _ & ->). simpl.
  unfold get_ln.
  destruct (mac_hsync_neg k), (mac_vsync_neg k),
    (bool_decide (cmnt_cta861_id c ∈ ln4)),
    (bool_decide (cmnt_cta861_id c ∈ ln7));
    repeat split; auto.
Qed.

Lemma accepted_record_literals_witness :
  width (hpol mode_1080p) = 1%nat /\ width (vpol mode_1080p) = 1%nat /\
  width (ln mode_1080p) = 1%nat.
Proof.
  destruct (accepted_record_literals entry_1080p mode_1080p [])
    as (_ & _ & _ & _ & H).
  - vm_compute. reflexivity.
  - exact H.
Defined.
